(** * DistroAV plugin bootstrap (src/plugin-main.cpp)

  A shallow embedding of the version comparison, the library locator,
  the loader and the module load / unload hooks of the plugin, with the
  properties of its specification stated and proved over it.

  Qt and the NDI runtime are outside the repository.  The parts of Qt the
  code relies on (QString::split, QString::toInt, the two regular
  expressions, the directory name filter) are modelled from Qt's
  documentation over byte strings; the file system, the environment and
  the behaviour of the library images are fields of a [World] record. *)

From Stdlib Require Import Bool Arith ZArith Lia List Ascii String.
Import ListNotations.

Local Open Scope string_scope.
Local Open Scope Z_scope.

(** ** Qt strings *)

Module QString.

Definition is_digit (c : ascii) : bool :=
  let n := nat_of_ascii c in (48 <=? n)%nat && (n <=? 57)%nat.

(** ASCII white space, as QChar::isSpace sees it below U+0080. *)
Definition is_space (c : ascii) : bool :=
  let n := nat_of_ascii c in ((9 <=? n)%nat && (n <=? 13)%nat) || (n =? 32)%nat.

Definition digit_value (c : ascii) : Z := Z.of_nat (nat_of_ascii c) - 48.

Definition isEmpty (s : string) : bool :=
  match s with EmptyString => true | String _ _ => false end.

(** [QString::split(sep)] with the default Qt::KeepEmptyParts: the empty
    string splits into one empty part, and n separators give n+1 parts. *)
Fixpoint split (sep : ascii) (s : string) : list string :=
  match s with
  | EmptyString => [EmptyString]
  | String c s' =>
      if Ascii.eqb c sep then EmptyString :: split sep s'
      else match split sep s' with
           | [] => [String c EmptyString]
           | p :: ps => String c p :: ps
           end
  end.

Fixpoint skip_spaces (s : string) : string :=
  match s with
  | EmptyString => EmptyString
  | String c s' => if is_space c then skip_spaces s' else s
  end.

(** Drops trailing white space: a character is kept when anything that is
    kept follows it, or when it is not a space itself. *)
Fixpoint drop_trailing_spaces (s : string) : string :=
  match s with
  | EmptyString => EmptyString
  | String c s' =>
      match drop_trailing_spaces s' with
      | EmptyString => if is_space c then EmptyString else String c EmptyString
      | r => String c r
      end
  end.

Definition trimmed (s : string) : string :=
  drop_trailing_spaces (skip_spaces s).

(** The value of a string made of decimal digits only, [None] otherwise.
    The empty string is refused by the callers. *)
Fixpoint digits_value (acc : Z) (s : string) : option Z :=
  match s with
  | EmptyString => Some acc
  | String c s' =>
      if is_digit c then digits_value (10 * acc + digit_value c) s' else None
  end.

Definition unsigned_value (s : string) : option Z :=
  if isEmpty s then None else digits_value 0 s.

(** Base-10 integer syntax of the C locale: surrounding white space, an
    optional sign, at least one digit and nothing else. *)
Definition toInteger (s : string) : option Z :=
  match trimmed s with
  | EmptyString => None
  | String c r =>
      if Ascii.eqb c "-" then option_map Z.opp (unsigned_value r)
      else if Ascii.eqb c "+" then unsigned_value r
      else unsigned_value (String c r)
  end.

Definition INT_MIN : Z := - 2147483648.
Definition INT_MAX : Z := 2147483647.

(** [QString::toInt(bool *ok = nullptr, int base = 10)]: the value when
    the string is an integer that fits an int, [None] (ok = false)
    otherwise. *)
Definition toInt_ok (s : string) : option Z :=
  match toInteger s with
  | Some v => if (INT_MIN <=? v) && (v <=? INT_MAX) then Some v else None
  | None => None
  end.

(** What the call returns: 0 when the conversion fails. *)
Definition toInt (s : string) : Z :=
  match toInt_ok s with Some v => v | None => 0 end.

End QString.

(** ** The two regular expressions and the directory name filter *)

Module QRegularExpression.

(** The longest prefix of decimal digits (a greedy [\d+], when not empty)
    and what follows it.  Without the Unicode-properties option [\d] is an
    ASCII digit. *)
Fixpoint span_digits (s : string) : string * string :=
  match s with
  | EmptyString => (EmptyString, EmptyString)
  | String c s' =>
      if QString.is_digit c
      then let '(d, r) := span_digits s' in (String c d, r)
      else (EmptyString, s)
  end.

(** [strip_prefix p s] is what follows [p] in [s], when [s] starts with [p]. *)
Fixpoint strip_prefix (p s : string) : option string :=
  match p, s with
  | EmptyString, _ => Some s
  | String a p', String b s' => if Ascii.eqb a b then strip_prefix p' s' else None
  | String _ _, EmptyString => None
  end.

(** [libndi\.so\.(\d+)] tried at the start of [s]: the text of group 1. *)
Definition libndi_match_here (s : string) : option string :=
  match strip_prefix "libndi.so." s with
  | Some r => let '(d, _) := span_digits r in
              if QString.isEmpty d then None else Some d
  | None => None
  end.

(** [QRegularExpression("libndi\\.so\\.(\\d+)").match(s)]: the pattern is not
    anchored, so the leftmost position where it matches wins; the result is
    [captured(1)], [None] when [hasMatch()] is false. *)
Fixpoint libndi_match (s : string) : option string :=
  match libndi_match_here s with
  | Some d => Some d
  | None => match s with
            | EmptyString => None
            | String _ s' => libndi_match s'
            end
  end.

(** [$] without the multiline option: the end of the subject, or just before
    a line feed that ends it. *)
Definition at_dollar (s : string) : bool :=
  match s with
  | EmptyString => true
  | String c EmptyString => Ascii.eqb c "010"
  | _ => false
  end.

(** [\.\d+] at the start of [s]: the digits and the rest. *)
Definition dot_digits (s : string) : option (string * string) :=
  match s with
  | String c r =>
      if Ascii.eqb c "." then
        let '(d, r') := span_digits r in
        if QString.isEmpty d then None else Some (d, r')
      else None
  | EmptyString => None
  end.

(** [(\d+\.\d+(\.\d+)?(\.\d+)?$)] tried at the start of [s].  Each [\d+] is
    followed by a dot, an optional group or [$], none of which a digit
    satisfies, so only the longest run of digits can lead to a match; the
    optional groups are tried present first, then absent. *)
Definition version_match_here (s : string) : option string :=
  let '(d1, r1) := span_digits s in
  if QString.isEmpty d1 then None else
  match dot_digits r1 with
  | None => None
  | Some (d2, r2) =>
      let two := d1 ++ "." ++ d2 in
      match dot_digits r2 with
      | Some (d3, r3) =>
          let three := two ++ "." ++ d3 in
          match dot_digits r3 with
          | Some (d4, r4) =>
              if at_dollar r4 then Some (three ++ "." ++ d4)
              else if at_dollar r3 then Some three
              else if at_dollar r2 then Some two else None
          | None =>
              if at_dollar r3 then Some three
              else if at_dollar r2 then Some two else None
          end
      | None => if at_dollar r2 then Some two else None
      end
  end.

Fixpoint version_match (s : string) : option string :=
  match version_match_here s with
  | Some m => Some m
  | None => match s with
            | EmptyString => None
            | String _ s' => version_match s'
            end
  end.

(** [.match(s).captured(1)] as the code uses it: the null string when there
    is no match. *)
Definition version_captured (s : string) : string :=
  match version_match s with Some m => m | None => EmptyString end.

Definition to_lower (c : ascii) : ascii :=
  let n := nat_of_ascii c in
  if (65 <=? n)%nat && (n <=? 90)%nat then ascii_of_nat (n + 32) else c.

Fixpoint starts_with_ci (p s : string) : bool :=
  match p, s with
  | EmptyString, _ => true
  | String a p', String b s' =>
      Ascii.eqb (to_lower a) (to_lower b) && starts_with_ci p' s'
  | String _ _, EmptyString => false
  end.

(** The name filter ["libndi.so.*"] of [QDir::entryList]: a wildcard over the
    whole name, case-insensitive since QDir::CaseSensitive is not passed. *)
Definition name_filter_libndi (file_name : string) : bool :=
  starts_with_ci "libndi.so." file_name.

End QRegularExpression.

(** ** Version comparison *)

(** The ternary of the loop body: a part past the end of the list is 0. *)
Definition part_at (parts : list string) (i : nat) : Z :=
  if (i <? List.length parts)%nat then QString.toInt (nth i parts EmptyString) else 0.

(** The [for] loop of [is_version_supported], from index [i] with
    [remaining] iterations to go ([remaining] = max_parts - i). *)
Fixpoint version_loop (version_parts min_version_parts : list string)
         (remaining i : nat) : bool :=
  match remaining with
  | O => true
  | S remaining' =>
      let version_part := part_at version_parts i in
      let min_version_part := part_at min_version_parts i in
      if version_part >? min_version_part then true
      else if version_part <? min_version_part then false
      else version_loop version_parts min_version_parts remaining' (S i)
  end.

(** Lines 116-134.  The sizes of the two lists are natural numbers here: they
    are [int] in Qt 5 and narrowed to [int] in Qt 6, which loses nothing for
    a list of fewer than 2^31 parts. *)
Definition is_version_supported (version min_version : string) : bool :=
  let version_parts := QString.split "." version in
  let min_version_parts := QString.split "." min_version in
  let max_parts := Nat.max (List.length version_parts) (List.length min_version_parts) in
  version_loop version_parts min_version_parts max_parts 0.



(** ** The world outside the plugin *)

(** The build target: [Q_OS_LINUX], [Q_OS_MACOS], or neither (Windows). *)
Inductive Platform := Q_OS_LINUX | Q_OS_MACOS | Q_OS_OTHER.

(** The function table [NDIlib_v6] as far as the plugin uses it: what
    [initialize()] and [version()] return ([destroy()] returns nothing). *)
Record NDIlib_v6 := {
  initialize : bool;
  version : string
}.

(** What happens when the file at a path is opened as a library. *)
Inductive Image :=
| Unloadable (errorString : string)      (* QLibrary::load() returns false *)
| NoEntryPoint                           (* resolve("NDIlib_v6_load") is null *)
| EntryPoint (result : option NDIlib_v6) (* what NDIlib_v6_load() returns *).

(** Macros that other files of the build define, the environment, the file
    system as Qt shows it, and the user in front of the dialog. *)
Record World := {
  platform : Platform;
  NDILIB_LIBRARY_NAME : string;
  NDI_OFFICIAL_WEB_URL : string;
  applicationDirPath : string;
  qgetenv : string -> string;                       (* empty when unset *)
  cleanPath : string -> string;                     (* QDir::cleanPath *)
  absoluteFilePath : string -> string -> string;    (* QDir(dir).absoluteFilePath(name) *)
  files_in : string -> list string;                 (* the files of a directory, in QDir's order *)
  is_regular_file : string -> bool;                 (* QFileInfo: exists() && isFile() *)
  image : string -> Image;
  clicks_install : bool
}.

(** ** Program state *)

(** A [QLibrary] object on the heap: its address and the file it names. *)
Record QLibrary := {
  address : nat;
  fileName : string
}.

Definition QLibrary_eqb (a b : QLibrary) : bool :=
  (address a =? address b)%nat && String.eqb (fileName a) (fileName b).

Inductive LogLevel := LOG_ERROR | LOG_INFO | LOG_DEBUG.

(** What the plugin does to the outside, in order. *)
Inductive Event :=
| EvLog (level : LogLevel) (message : string)
| EvEntryList (location : string)          (* QDir::entryList *)
| EvFileInfo (path : string)               (* QFileInfo exists / isFile *)
| EvNew (lib : QLibrary)                   (* new QLibrary(path) *)
| EvLoad (lib : QLibrary) (ok : bool)      (* QLibrary::load() *)
| EvResolve (lib : QLibrary) (found : bool)
| EvEntry (lib : QLibrary)                 (* the call lib_load() *)
| EvDelete (lib : QLibrary)                (* delete loaded_lib *)
| EvInitialize (ndi : NDIlib_v6)
| EvVersion (ndi : NDIlib_v6)
| EvDestroy (ndi : NDIlib_v6)
| EvDialog
| EvOpenUrl (url : string)
| EvRegisterSource (name : string)
| EvRegisterOutput (name : string).

(** The two globals, the heap of [QLibrary] objects and the trace. *)
Record State := {
  loaded_lib : option QLibrary;      (* QLibrary *loaded_lib, None = nullptr *)
  ndiLib : option NDIlib_v6;         (* const NDIlib_v6 *ndiLib *)
  next_address : nat;
  live : list QLibrary;              (* objects created and not deleted *)
  isLoaded : list QLibrary;          (* objects whose load() succeeded *)
  trace : list Event
}.

Definition initial_state : State :=
  {| loaded_lib := None; ndiLib := None; next_address := 1;
     live := []; isLoaded := []; trace := [] |}.

(** ** A state monad for the plugin's code *)

Definition M (A : Type) : Type := State -> A * State.

Definition ret {A} (a : A) : M A := fun s => (a, s).

Definition bind {A B} (m : M A) (k : A -> M B) : M B :=
  fun s => let '(a, s') := m s in k a s'.

Declare Scope plugin_scope.
Delimit Scope plugin_scope with plugin.
Notation "x <- m ;; k" := (bind m (fun x => k))
  (at level 61, m at next level, right associativity) : plugin_scope.
Notation "m ;; k" := (bind m (fun _ => k))
  (at level 61, right associativity) : plugin_scope.
Local Open Scope plugin_scope.

Definition emit (e : Event) : M unit :=
  fun s => (tt, {| loaded_lib := loaded_lib s; ndiLib := ndiLib s;
                   next_address := next_address s; live := live s;
                   isLoaded := isLoaded s; trace := trace s ++ [e] |}).

Definition obs_log (level : LogLevel) (message : string) : M unit :=
  emit (EvLog level message).

Definition get_loaded_lib : M (option QLibrary) := fun s => (loaded_lib s, s).
Definition get_ndiLib : M (option NDIlib_v6) := fun s => (ndiLib s, s).

Definition set_loaded_lib (v : option QLibrary) : M unit :=
  fun s => (tt, {| loaded_lib := v; ndiLib := ndiLib s;
                   next_address := next_address s; live := live s;
                   isLoaded := isLoaded s; trace := trace s |}).

Definition set_ndiLib (v : option NDIlib_v6) : M unit :=
  fun s => (tt, {| loaded_lib := loaded_lib s; ndiLib := v;
                   next_address := next_address s; live := live s;
                   isLoaded := isLoaded s; trace := trace s |}).

(** [new QLibrary(path, nullptr)]: a fresh object. *)
Definition new_QLibrary (path : string) : M QLibrary :=
  fun s =>
    let lib := {| address := next_address s; fileName := path |} in
    (lib, {| loaded_lib := loaded_lib s; ndiLib := ndiLib s;
             next_address := S (next_address s); live := lib :: live s;
             isLoaded := isLoaded s; trace := trace s ++ [EvNew lib] |}).

(** [lib->load()]. *)
Definition QLibrary_load (w : World) (lib : QLibrary) : M bool :=
  fun s =>
    let ok := match image w (fileName lib) with Unloadable _ => false | _ => true end in
    (ok, {| loaded_lib := loaded_lib s; ndiLib := ndiLib s;
            next_address := next_address s; live := live s;
            isLoaded := if ok then lib :: isLoaded s else isLoaded s;
            trace := trace s ++ [EvLoad lib ok] |}).

Definition QLibrary_errorString (w : World) (lib : QLibrary) : string :=
  match image w (fileName lib) with Unloadable e => e | _ => EmptyString end.

(** [lib->resolve("NDIlib_v6_load")]: the entry function, as what a call of
    it returns; [None] is the null function pointer. *)
Definition QLibrary_resolve (w : World) (lib : QLibrary) : M (option (option NDIlib_v6)) :=
  let r := match image w (fileName lib) with EntryPoint f => Some f | _ => None end in
  emit (EvResolve lib (match r with Some _ => true | None => false end)) ;;
  ret r.

(** [delete lib]: the object leaves the heap.  Deleting an object that is no
    longer there (undefined behaviour in C++) shows in the trace as a second
    [EvDelete] of it and leaves the heap as it is. *)
Definition delete_QLibrary (lib : QLibrary) : M unit :=
  fun s =>
    (tt, {| loaded_lib := loaded_lib s; ndiLib := ndiLib s;
            next_address := next_address s;
            live := filter (fun l => negb (QLibrary_eqb l lib)) (live s);
            isLoaded := filter (fun l => negb (QLibrary_eqb l lib)) (isLoaded s);
            trace := trace s ++ [EvDelete lib] |}).


(** ** The plugin *)

Definition PLUGIN_DISPLAY_NAME : string := "MixStage NDI".
Definition PLUGIN_MIN_NDI_VERSION : string := "6.0.0".

(** The optional entry an environment variable adds to [locations]. *)
Definition env_location (w : World) (name : string) : list string :=
  let value := qgetenv w name in
  if QString.isEmpty value then [] else [value].

Definition frameworksDir (w : World) : string :=
  cleanPath w (applicationDirPath w ++ "/../Frameworks").

Definition system_locations (w : World) : list string :=
  match platform w with
  | Q_OS_LINUX => ["/usr/lib"; "/usr/local/lib"; "/app/plugins/DistroAV/extra/lib"]
  | Q_OS_MACOS => ["/usr/lib"; "/usr/local/lib"]
  | Q_OS_OTHER => []
  end.

Definition vendor_locations : list string :=
  ["/Library/NDI SDK for Apple/lib"; "/Library/NDI/lib"; "/opt/homebrew/opt/libndi/lib"].

(** The list [locations] as [load_ndilib] has built it when its loop starts. *)
Definition locations (w : World) : list string :=
  [frameworksDir w]
  ++ env_location w "NDI_RUNTIME_DIR_V6"
  ++ env_location w "NDILIB_REDIST_FOLDER"
  ++ system_locations w
  ++ vendor_locations.

(** [dir.entryList(QDir::Files)] under the name filter. *)
Definition entryList (w : World) (location : string) : M (list string) :=
  emit (EvEntryList location) ;;
  ret (filter QRegularExpression.name_filter_libndi (files_in w location)).

(** The inner loop of the Linux branch over the file names of one directory,
    on the pair (max_version, lib_path). *)
Fixpoint scan_file_names (w : World) (location : string) (file_names : list string)
         (acc : Z * string) : Z * string :=
  match file_names with
  | [] => acc
  | file_name :: rest =>
      let '(max_version, lib_path) := acc in
      let acc' :=
        match QRegularExpression.libndi_match file_name with
        | Some captured =>
            let version := QString.toInt captured in
            if version >? max_version
            then (version, absoluteFilePath w location file_name)
            else acc
        | None => acc
        end in
      scan_file_names w location rest acc'
  end.

(** The loop over [locations] as compiled for Linux. *)
Fixpoint locate_linux (w : World) (locs : list string) (acc : Z * string)
  : M (Z * string) :=
  match locs with
  | [] => ret acc
  | location :: rest =>
      file_names <- entryList w location ;;
      locate_linux w rest (scan_file_names w location file_names acc)
  end.

Definition temp_path (w : World) (location : string) : string :=
  cleanPath w (absoluteFilePath w location (NDILIB_LIBRARY_NAME w)).

(** The loop over [locations] as compiled for macOS and Windows: [lib_path]
    stays empty until a probe succeeds, and the loop breaks there. *)
Fixpoint locate_first (w : World) (locs : list string) : M string :=
  match locs with
  | [] => ret EmptyString
  | location :: rest =>
      obs_log LOG_DEBUG "load_ndilib: Trying '%s'" ;;
      emit (EvFileInfo (temp_path w location)) ;;
      if is_regular_file w (temp_path w location)
      then ret (temp_path w location)
      else locate_first w rest
  end.

(** Lines 222-294: the value of [lib_path] after the loop. *)
Definition locate (w : World) : M string :=
  match platform w with
  | Q_OS_LINUX =>
      r <- locate_linux w (locations w) (0, EmptyString) ;;
      ret (snd r)
  | _ => locate_first w (locations w)
  end.

(** The two log lines every failing run of [load_ndilib] ends with. *)
Definition not_found : M (option NDIlib_v6) :=
  obs_log LOG_ERROR "ERR-404 - NDI library not found, DistroAV cannot continue. Read the wiki and install the NDI Libraries." ;;
  obs_log LOG_DEBUG "load_ndilib: ERROR: Can't find the NDI library" ;;
  ret None.

(** Lines 295-324, from the [lib_path] the loop has left. *)
Definition load_from (w : World) (lib_path : string) : M (option NDIlib_v6) :=
  if negb (QString.isEmpty lib_path) then
    obs_log LOG_DEBUG "load_ndilib: Found '%s'; attempting to load NDI library..." ;;
    lib <- new_QLibrary lib_path ;;
    set_loaded_lib (Some lib) ;;
    ok <- QLibrary_load w lib ;;
    if ok then
      obs_log LOG_DEBUG "load_ndilib: NDI library loaded successfully" ;;
      lib_load <- QLibrary_resolve w lib ;;
      match lib_load with
      | Some result =>
          obs_log LOG_DEBUG "load_ndilib: NDIlib_v6_load found" ;;
          emit (EvEntry lib) ;;
          ret result
      | None =>
          obs_log LOG_ERROR "ERR-405 - Error loading the NDI Library from path: '%s'" ;;
          obs_log LOG_DEBUG "load_ndilib: ERROR: NDIlib_v6_load not found in loaded library" ;;
          not_found
      end
    else
      obs_log LOG_ERROR "ERR-402 - Error loading QLibrary with error: '%s'" ;;
      obs_log LOG_DEBUG "load_ndilib: ERROR: QLibrary returned the following error: '%s'" ;;
      held <- get_loaded_lib ;;
      match held with Some l => delete_QLibrary l | None => ret tt end ;;
      set_loaded_lib None ;;
      not_found
  else not_found.

Definition load_ndilib (w : World) : M (option NDIlib_v6) :=
  lib_path <- locate w ;;
  load_from w lib_path.

(** The message box of the failure path and what the user does with it. *)
Definition prompt_install (w : World) : M unit :=
  emit EvDialog ;;
  if clicks_install w then emit (EvOpenUrl (NDI_OFFICIAL_WEB_URL w)) else ret tt.

Definition register_all : M unit :=
  emit (EvRegisterSource "ndi_source_info") ;;
  emit (EvRegisterOutput "ndi_output_info") ;;
  emit (EvRegisterSource "alpha_filter_info").

Definition obs_module_load (w : World) : M bool :=
  obs_log LOG_DEBUG "+obs_module_load()" ;;
  r <- load_ndilib w ;;
  set_ndiLib r ;;
  match r with
  | None =>
      obs_log LOG_ERROR "ERR-401 - NDI library failed to load. Please install NDI Runtime >= 6.0.0" ;;
      prompt_install w ;;
      ret false
  | Some ndi =>
      emit (EvInitialize ndi) ;;
      if negb (initialize ndi) then
        obs_log LOG_ERROR "ERR-406 - NDI library could not initialize due to unsupported CPU." ;;
        ret false
      else
        emit (EvVersion ndi) ;;
        obs_log LOG_INFO "obs_module_load: NDI library detected ('%s')" ;;
        emit (EvVersion ndi) ;;
        let ndi_version_short := QRegularExpression.version_captured (version ndi) in
        obs_log LOG_INFO "NDI Version detected: %s" ;;
        if negb (is_version_supported ndi_version_short PLUGIN_MIN_NDI_VERSION) then
          obs_log LOG_ERROR "ERR-425 - %s requires at least NDI version %s. NDI Version detected: %s. Plugin will unload." ;;
          ret false
        else
          obs_log LOG_INFO "obs_module_load: NDI library initialized successfully" ;;
          register_all ;;
          obs_log LOG_INFO "obs_module_load: DistroAV plugin loaded successfully" ;;
          obs_log LOG_DEBUG "-obs_module_load()" ;;
          ret true
  end.

Definition obs_module_unload : M unit :=
  obs_log LOG_DEBUG "+obs_module_unload()" ;;
  ndi <- get_ndiLib ;;
  match ndi with
  | Some n => emit (EvDestroy n) ;; set_ndiLib None
  | None => ret tt
  end ;;
  held <- get_loaded_lib ;;
  match held with
  | Some l => delete_QLibrary l
  | None => ret tt
  end ;;
  obs_log LOG_DEBUG "-obs_module_unload(): goodbye!".

(** ** Runs of the host *)

Inductive Op :=
| OpLoad (w : World)     (* the host calls obs_module_load in this world *)
| OpUnload.              (* the host calls obs_module_unload *)

Definition step (o : Op) (s : State) : State :=
  match o with
  | OpLoad w => snd (obs_module_load w s)
  | OpUnload => snd (obs_module_unload s)
  end.

Definition run (ops : list Op) (s : State) : State :=
  fold_left (fun st o => step o st) ops s.

(** No load attempt follows another without a teardown in between. *)
Fixpoint serialized (ops : list Op) : bool :=
  match ops with
  | OpLoad _ :: OpLoad _ :: _ => false
  | _ :: rest => serialized rest
  | [] => true
  end.


(** Every object on the heap is the one [loaded_lib] points to. *)
Definition owned (s : State) : Prop :=
  live s = [] \/ exists lib, live s = [lib] /\ loaded_lib s = Some lib.

(** ** Reading a trace *)

(** The events one state has seen since an earlier one. *)
Definition events_since (s s' : State) : list Event :=
  skipn (List.length (trace s)) (trace s').

(** The files a trace opens as libraries, in order. *)
Fixpoint opened (t : list Event) : list string :=
  match t with
  | EvNew lib :: t' => fileName lib :: opened t'
  | _ :: t' => opened t'
  | [] => []
  end.

(** The directories listed and the paths probed, in order. *)
Fixpoint probed (t : list Event) : list string :=
  match t with
  | EvEntryList location :: t' => location :: probed t'
  | EvFileInfo path :: t' => path :: probed t'
  | _ :: t' => probed t'
  | [] => []
  end.

Fixpoint deleted (t : list Event) : list QLibrary :=
  match t with
  | EvDelete lib :: t' => lib :: deleted t'
  | _ :: t' => deleted t'
  | [] => []
  end.

Fixpoint destroyed (t : list Event) : list NDIlib_v6 :=
  match t with
  | EvDestroy ndi :: t' => ndi :: destroyed t'
  | _ :: t' => destroyed t'
  | [] => []
  end.

(** The capability objects handed to the host, in order. *)
Fixpoint registered (t : list Event) : list string :=
  match t with
  | EvRegisterSource name :: t' => name :: registered t'
  | EvRegisterOutput name :: t' => name :: registered t'
  | _ :: t' => registered t'
  | [] => []
  end.

(** The code [ERR-nnn] of each error line logged, in order. *)
Fixpoint errors (t : list Event) : list string :=
  match t with
  | EvLog LOG_ERROR message :: t' => substring 0 7 message :: errors t'
  | _ :: t' => errors t'
  | [] => []
  end.

(** Events of the locator: log lines, directory listings and file probes. *)
Definition is_lookup (e : Event) : bool :=
  match e with
  | EvLog LOG_DEBUG _ | EvEntryList _ | EvFileInfo _ => true
  | _ => false
  end.

(** The globals and the heap are the same in both states. *)
Definition same_globals (s s' : State) : Prop :=
  loaded_lib s' = loaded_lib s /\ ndiLib s' = ndiLib s
  /\ next_address s' = next_address s /\ live s' = live s
  /\ isLoaded s' = isLoaded s.

(** The version numbers and paths the Linux loop compares, in scan order:
    for each location, each listed file name the pattern matches. *)
Definition candidates_in (w : World) (location : string) : list (Z * string) :=
  flat_map
    (fun file_name =>
       match QRegularExpression.libndi_match file_name with
       | Some captured =>
           [(QString.toInt captured, absoluteFilePath w location file_name)]
       | None => []
       end)
    (filter QRegularExpression.name_filter_libndi (files_in w location)).

Definition candidates (w : World) (locs : list string) : list (Z * string) :=
  flat_map (candidates_in w) locs.

(** The running maximum the Linux loop keeps over such a list, from the
    pair [acc]: a candidate replaces the pair only when its number is
    strictly greater. *)
Fixpoint running_max (cands : list (Z * string)) (acc : Z * string) : Z * string :=
  match cands with
  | [] => acc
  | (v, p) :: rest => running_max rest (if v >? fst acc then (v, p) else acc)
  end.

(** A string of decimal digits only. *)
Fixpoint only_digits (s : string) : bool :=
  match s with
  | EmptyString => true
  | String c s' => QString.is_digit c && only_digits s'
  end.

(** ** Worlds to run the plugin in *)

Definition join_path (dir name : string) : string := dir ++ "/" ++ name.

(** What a world with the library files [images] finds at a path. *)
Fixpoint image_at (images : list (string * Image)) (path : string) : option Image :=
  match images with
  | [] => None
  | (file, img) :: rest => if String.eqb path file then Some img else image_at rest path
  end.

(** A macOS machine: no environment variable set, and the library files
    [images], each with what opening it does. *)
Definition mac_world_images (images : list (string * Image)) : World :=
  {| platform := Q_OS_MACOS;
     NDILIB_LIBRARY_NAME := "libndi.dylib";
     NDI_OFFICIAL_WEB_URL := "https://ndi.video/tools/";
     applicationDirPath := "/Applications/OBS.app/Contents/MacOS";
     qgetenv := fun _ => EmptyString;
     cleanPath := fun p => p;
     absoluteFilePath := join_path;
     files_in := fun _ => [];
     is_regular_file :=
       fun p => match image_at images p with Some _ => true | None => false end;
     image :=
       fun p => match image_at images p with
                | Some img => img
                | None => Unloadable "file not found"
                end;
     clicks_install := false |}.

Definition mac_world (lib_file : string) (img : Image) : World :=
  mac_world_images [(lib_file, img)].

Definition usr_local_dylib : string := "/usr/local/lib/libndi.dylib".

Definition bundled_dylib : string :=
  "/Applications/OBS.app/Contents/MacOS/../Frameworks/libndi.dylib".

(** A Linux machine whose directories hold the files [files] lists; every
    file opens as [img]. *)
Definition linux_world (files : string -> list string) (img : Image) : World :=
  {| platform := Q_OS_LINUX;
     NDILIB_LIBRARY_NAME := "libndi.so";
     NDI_OFFICIAL_WEB_URL := "https://ndi.video/tools/";
     applicationDirPath := "/usr/bin";
     qgetenv := fun _ => EmptyString;
     cleanPath := fun p => p;
     absoluteFilePath := join_path;
     files_in := files;
     is_regular_file := fun _ => false;
     image := fun _ => img;
     clicks_install := false |}.

(** libndi.so.3 in /usr/lib, libndi.so.10 and libndi.so.2 in /usr/local/lib. *)
Definition files_3_10_2 (dir : string) : list string :=
  if String.eqb dir "/usr/lib" then ["libndi.so.3"]
  else if String.eqb dir "/usr/local/lib" then ["libndi.so.10"; "libndi.so.2"]
  else [].

(** Only libndi.so.0, in /usr/lib. *)
Definition files_0 (dir : string) : list string :=
  if String.eqb dir "/usr/lib" then ["libndi.so.0"] else [].

Definition ndi_6_2_1 : NDIlib_v6 :=
  {| initialize := true; version := "NDI SDK APPLE 13:02:11 Mar 4 2025 6.2.1.0" |}.

Definition ndi_5_6_1 : NDIlib_v6 :=
  {| initialize := true; version := "NDI SDK APPLE 09:41:00 Aug 2 2023 5.6.1.0" |}.

Definition ndi_old_cpu : NDIlib_v6 :=
  {| initialize := false; version := "NDI SDK APPLE 13:02:11 Mar 4 2025 6.2.1.0" |}.

(** The path [load_ndilib] settles on in a world: its loop only reads the
    world, so the state it starts from does not matter. *)
Definition selected (w : World) : string := fst (locate w initial_state).

(** A machine on which the plugin loads: NDI 6.2.1 in /usr/local/lib. *)
Definition working_mac : World :=
  mac_world usr_local_dylib (EntryPoint (Some ndi_6_2_1)).

(** A string without any decimal digit. *)
Fixpoint no_digit (s : string) : bool :=
  match s with
  | EmptyString => true
  | String c s' => negb (QString.is_digit c) && no_digit s'
  end.

(** The fields of a version written with dots between them. *)
Fixpoint join_dots (parts : list string) : string :=
  match parts with
  | [] => EmptyString
  | [p] => p
  | p :: rest => p ++ "." ++ join_dots rest
  end.

(** A non-empty string of decimal digits. *)
Definition is_number (s : string) : bool :=
  only_digits s && negb (QString.isEmpty s).

(** The library objects a trace creates, in order. *)
Fixpoint created (t : list Event) : list QLibrary :=
  match t with
  | EvNew lib :: t' => lib :: created t'
  | _ :: t' => created t'
  | [] => []
  end.

(** How many times the install prompt was shown. *)
Fixpoint dialogs (t : list Event) : nat :=
  match t with
  | EvDialog :: t' => S (dialogs t')
  | _ :: t' => dialogs t'
  | [] => O
  end.

(** The pages opened in the browser, in order. *)
Fixpoint urls (t : list Event) : list string :=
  match t with
  | EvOpenUrl url :: t' => url :: urls t'
  | _ :: t' => urls t'
  | [] => []
  end.

(** ** The configuration singleton *)

(** [Config] (declared in config.h) as far as its constructor sets it. *)
Record Config := {
  OutputEnabled : bool;
  OutputName : string;
  OutputGroups : string;
  PreviewOutputEnabled : bool;
  PreviewOutputName : string;
  PreviewOutputGroups : string;
  TallyProgramEnabled : bool;
  TallyPreviewEnabled : bool
}.

(** [Config::Config()], lines 103-113. *)
Definition Config_new : Config :=
  {| OutputEnabled := false;
     OutputName := "MixStage NDI Output";
     OutputGroups := "";
     PreviewOutputEnabled := false;
     PreviewOutputName := "MixStage NDI Preview";
     PreviewOutputGroups := "";
     TallyProgramEnabled := false;
     TallyPreviewEnabled := false |}.

(** The static [Config::_instance] (None = nullptr) and the [Config] objects
    on the heap, by address. *)
Record ConfigState := {
  _instance : option nat;
  config_heap : list (nat * Config);
  config_next : nat
}.

Definition Config_initial : ConfigState :=
  {| _instance := None; config_heap := []; config_next := 1 |}.

(** [Config::Initialize()], lines 82-86. *)
Definition Config_Initialize (cs : ConfigState) : ConfigState :=
  match _instance cs with
  | None =>
      {| _instance := Some (config_next cs);
         config_heap := (config_next cs, Config_new) :: config_heap cs;
         config_next := S (config_next cs) |}
  | Some _ => cs
  end.

(** [Config::Current(bool load)], lines 88-94: the pointer returned and the
    state left. *)
Definition Config_Current (load : bool) (cs : ConfigState) : option nat * ConfigState :=
  let cs' := match _instance cs with
             | None => Config_Initialize cs
             | Some _ => cs
             end in
  (_instance cs', cs').

(** [Config::Destroy()], lines 96-101. *)
Definition Config_Destroy (cs : ConfigState) : ConfigState :=
  match _instance cs with
  | Some a =>
      {| _instance := None;
         config_heap := filter (fun entry => negb (fst entry =? a)%nat) (config_heap cs);
         config_next := config_next cs |}
  | None => cs
  end.

Inductive ConfigOp :=
| CallInitialize
| CallCurrent (load : bool)
| CallDestroy.

Definition Config_step (o : ConfigOp) (cs : ConfigState) : ConfigState :=
  match o with
  | CallInitialize => Config_Initialize cs
  | CallCurrent load => snd (Config_Current load cs)
  | CallDestroy => Config_Destroy cs
  end.

Definition Config_run (ops : list ConfigOp) (cs : ConfigState) : ConfigState :=
  fold_left (fun st o => Config_step o st) ops cs.

(** The object at an address, when there is one. *)
Fixpoint Config_at (heap : list (nat * Config)) (a : nat) : option Config :=
  match heap with
  | [] => None
  | (b, c) :: rest => if (a =? b)%nat then Some c else Config_at rest a
  end.

(** [_instance] points to the only object on the heap, or is null and the
    heap is empty. *)
Definition Config_singleton (cs : ConfigState) : Prop :=
  match _instance cs with
  | Some a => exists c, config_heap cs = [(a, c)]
  | None => config_heap cs = []
  end.

(** A Windows machine with the NDI 6 runtime installed where the
    environment variable says, and an older copy in the legacy folder. *)
Definition windows_world : World :=
  {| platform := Q_OS_OTHER;
     NDILIB_LIBRARY_NAME := "Processing.NDI.Lib.x64.dll";
     NDI_OFFICIAL_WEB_URL := "https://ndi.video/tools/";
     applicationDirPath := "C:/Program Files/obs-studio/bin/64bit";
     qgetenv := fun name =>
       if String.eqb name "NDI_RUNTIME_DIR_V6" then "C:/Program Files/NDI/NDI 6 Runtime/v6"
       else if String.eqb name "NDILIB_REDIST_FOLDER" then "C:/Program Files/NDI/NDI 5 Runtime/v5"
       else EmptyString;
     cleanPath := fun p => p;
     absoluteFilePath := join_path;
     files_in := fun _ => [];
     is_regular_file := fun p =>
       String.eqb p "C:/Program Files/NDI/NDI 6 Runtime/v6/Processing.NDI.Lib.x64.dll"
       || String.eqb p "C:/Program Files/NDI/NDI 5 Runtime/v5/Processing.NDI.Lib.x64.dll";
     image := fun _ => EntryPoint (Some ndi_6_2_1);
     clicks_install := false |}.

(** A library that initializes but reports its version as a word. *)
Definition ndi_unversioned : NDIlib_v6 :=
  {| initialize := true; version := "NDI SDK APPLE (development build)" |}.

(** ** The comparison in the words of the specification *)

(** A list of parsed fields with zeros for the missing ones, up to [n]. *)
Definition pad_zeros (n : nat) (fields : list Z) : list Z :=
  fields ++ repeat 0 (n - List.length fields).

(** Decided at the first pair that differs: supported when the candidate's
    field is the greater, not when it is the smaller; supported when no pair
    differs. *)
Fixpoint first_difference (pairs : list (Z * Z)) : bool :=
  match pairs with
  | [] => true
  | (candidate_field, required_field) :: rest =>
      if candidate_field >? required_field then true
      else if candidate_field <? required_field then false
      else first_difference rest
  end.

(** Both versions as lists of numbers, missing trailing fields as zero. *)
Definition zero_padded_supported (candidate required : list Z) : bool :=
  let n := Nat.max (List.length candidate) (List.length required) in
  first_difference (combine (pad_zeros n candidate) (pad_zeros n required)).

(** [QDir::cleanPath] on paths written with "/", after its documentation:
    empty and "." components are dropped, a ".." removes the component
    before it (at the root it is dropped, in a relative path it stays), and
    no separator is left at the end.  [kept] holds the components kept so
    far, last first. *)
Fixpoint resolve_dots (absolute : bool) (components kept : list string) : list string :=
  match components with
  | [] => rev kept
  | c :: rest =>
      if String.eqb c "" || String.eqb c "." then resolve_dots absolute rest kept
      else if String.eqb c ".." then
        match kept with
        | k :: kept' =>
            if String.eqb k ".." then resolve_dots absolute rest (c :: kept)
            else resolve_dots absolute rest kept'
        | [] =>
            if absolute then resolve_dots absolute rest []
            else resolve_dots absolute rest [c]
        end
      else resolve_dots absolute rest (c :: kept)
  end.

Definition clean_path (path : string) : string :=
  match path with
  | EmptyString => EmptyString
  | String first _ =>
      let absolute := Ascii.eqb first "/" in
      let kept := resolve_dots absolute (QString.split "/" path) [] in
      if absolute then ("/" ++ String.concat "/" kept)%string
      else match kept with
           | [] => "."
           | _ => String.concat "/" kept
           end
  end.

(** A macOS machine with both environment variables set and a [cleanPath]
    that resolves dots, holding library files at the paths [lib_files]. *)
Definition mac_world_env (lib_files : list string) : World :=
  {| platform := Q_OS_MACOS;
     NDILIB_LIBRARY_NAME := "libndi.dylib";
     NDI_OFFICIAL_WEB_URL := "https://ndi.video/tools/";
     applicationDirPath := "/Applications/OBS.app/Contents/MacOS";
     qgetenv := fun name =>
       if String.eqb name "NDI_RUNTIME_DIR_V6" then "/opt/ndi/v6/"
       else if String.eqb name "NDILIB_REDIST_FOLDER" then "/opt/ndi/redist"
       else EmptyString;
     cleanPath := clean_path;
     absoluteFilePath := join_path;
     files_in := fun _ => [];
     is_regular_file := fun p => existsb (String.eqb p) lib_files;
     image := fun _ => EntryPoint (Some ndi_6_2_1);
     clicks_install := false |}.

(** ** Runs whose every delete meets a live object *)

(** [obs_module_unload] deletes [loaded_lib] when it is not null; the call
    has a defined behaviour only if that object is still alive. *)
Definition unload_defined (s : State) : bool :=
  match loaded_lib s with
  | Some l => existsb (QLibrary_eqb l) (live s)
  | None => true
  end.

(** A run from [s] in which no unload deletes an object that is already
    gone.  (The one delete of a load attempt is of the object it has just
    created.) *)
Fixpoint defined_run (ops : list Op) (s : State) : bool :=
  match ops with
  | [] => true
  | o :: rest =>
      match o with
      | OpUnload => unload_defined s
      | OpLoad _ => true
      end && defined_run rest (step o s)
  end.

(** Live objects have addresses already given out; deleted objects too, and
    they are not alive; and no object was deleted twice. *)
Definition tidy (s : State) : Prop :=
  (forall l, In l (live s) -> (address l < next_address s)%nat)
  /\ (forall l, In l (deleted (trace s)) ->
                (address l < next_address s)%nat /\ ~ In l (live s))
  /\ NoDup (deleted (trace s)).

(** * Properties *)

Local Open Scope list_scope.

(** ** Version comparison *)

Lemma part_at_present (parts : list string) (i : nat) :
  (i < List.length parts)%nat ->
  part_at parts i = QString.toInt (nth i parts EmptyString).
Proof.
  intros H. unfold part_at.
  destruct (Nat.ltb_spec i (List.length parts)); [reflexivity | lia].
Qed.

Lemma part_at_missing (parts : list string) (i : nat) :
  (List.length parts <= i)%nat -> part_at parts i = 0.
Proof.
  intros H. unfold part_at.
  destruct (Nat.ltb_spec i (List.length parts)); [lia | reflexivity].
Qed.

Lemma version_loop_equal (vp mp : list string) :
  forall n i,
    (forall j, (j < n)%nat -> part_at vp (i + j) = part_at mp (i + j)) ->
    version_loop vp mp n i = true.
Proof.
  induction n as [|n IH]; intros i Heq; simpl; [reflexivity|].
  pose proof (Heq 0%nat ltac:(lia)) as H0. rewrite Nat.add_0_r in H0.
  rewrite H0.
  destruct (Z.gtb_spec (part_at mp i) (part_at mp i)); [lia|].
  destruct (Z.ltb_spec (part_at mp i) (part_at mp i)); [lia|].
  apply IH. intros j Hj.
  replace (S i + j)%nat with (i + S j)%nat by lia. apply Heq. lia.
Qed.

Lemma version_loop_first_diff (vp mp : list string) :
  forall n i k,
    (k < n)%nat ->
    (forall j, (j < k)%nat -> part_at vp (i + j) = part_at mp (i + j)) ->
    part_at vp (i + k) <> part_at mp (i + k) ->
    version_loop vp mp n i = (part_at vp (i + k) >? part_at mp (i + k)).
Proof.
  induction n as [|n IH]; intros i k Hk Heq Hne; [lia|].
  simpl. destruct k as [|k].
  - rewrite Nat.add_0_r in *.
    destruct (Z.gtb_spec (part_at vp i) (part_at mp i)); [reflexivity|].
    destruct (Z.ltb_spec (part_at vp i) (part_at mp i)); [reflexivity | lia].
  - pose proof (Heq 0%nat ltac:(lia)) as H0. rewrite Nat.add_0_r in H0.
    rewrite H0.
    destruct (Z.gtb_spec (part_at mp i) (part_at mp i)); [lia|].
    destruct (Z.ltb_spec (part_at mp i) (part_at mp i)); [lia|].
    replace (i + S k)%nat with (S i + k)%nat in * by lia.
    apply IH; [lia | | assumption].
    intros j Hj. replace (S i + j)%nat with (i + S j)%nat by lia.
    apply Heq. lia.
Qed.

(** C1: [is_version_supported] splits both strings on the dot and walks the
    fields up to the longer length, a missing field counting as 0 and a
    present one as its [toInt]; at the first field where the two differ it
    answers true when the candidate's is greater and false when it is
    smaller; it answers true when no field differs, so for identical
    strings; and "6.0" is not supported against "6.0.0.1". *)
Theorem is_version_supported_spec (candidate required : string) :
  let candidate_parts := QString.split "." candidate in
  let required_parts := QString.split "." required in
  let N := Nat.max (List.length candidate_parts) (List.length required_parts) in
  (forall parts i,
      part_at parts i =
      if (i <? List.length parts)%nat
      then QString.toInt (nth i parts EmptyString) else 0)
  /\ (forall i, (i < N)%nat ->
        (forall j, (j < i)%nat -> part_at candidate_parts j = part_at required_parts j) ->
        part_at candidate_parts i > part_at required_parts i ->
        is_version_supported candidate required = true)
  /\ (forall i, (i < N)%nat ->
        (forall j, (j < i)%nat -> part_at candidate_parts j = part_at required_parts j) ->
        part_at candidate_parts i < part_at required_parts i ->
        is_version_supported candidate required = false)
  /\ ((forall i, (i < N)%nat -> part_at candidate_parts i = part_at required_parts i) ->
      is_version_supported candidate required = true)
  /\ is_version_supported candidate candidate = true
  /\ is_version_supported "6.0" "6.0.0.1" = false.
Proof.
  intros cp rp N. repeat split.
  - intros i Hi Heq Hgt. unfold is_version_supported. fold cp rp N.
    rewrite (version_loop_first_diff cp rp N 0 i Hi); simpl; try assumption.
    + apply Z.gtb_lt. lia.
    + lia.
  - intros i Hi Heq Hlt. unfold is_version_supported. fold cp rp N.
    rewrite (version_loop_first_diff cp rp N 0 i Hi); simpl; try assumption.
    + destruct (Z.gtb_spec (part_at cp i) (part_at rp i)); [lia | reflexivity].
    + lia.
  - intros Heq. unfold is_version_supported. fold cp rp N.
    apply version_loop_equal. intros j Hj. simpl. apply Heq. exact Hj.
  - unfold is_version_supported. apply version_loop_equal. reflexivity.
Qed.

(** The comparison at work on the inputs the specification names. *)
Lemma is_version_supported_spec_witness :
  is_version_supported "7.0" "6.5" = true
  /\ is_version_supported "5.9.9" "6.0.0" = false
  /\ is_version_supported "6.0.0" "6.0.0.0" = true.
Proof.
  destruct (is_version_supported_spec "7.0" "6.5") as (_ & Hgt & _).
  destruct (is_version_supported_spec "5.9.9" "6.0.0") as (_ & _ & Hlt & _).
  destruct (is_version_supported_spec "6.0.0" "6.0.0.0") as (_ & _ & _ & Heq & _).
  split; [|split].
  - apply (Hgt 0%nat); [simpl; lia | intros j Hj; lia | reflexivity].
  - apply (Hlt 0%nat); [simpl; lia | intros j Hj; lia | reflexivity].
  - apply Heq. intros i Hi. simpl in Hi.
    do 4 (destruct i as [|i]; [reflexivity|]). lia.
Defined.

(** ** Fields that are not numbers *)

Lemma no_digit_skip_spaces (s : string) :
  no_digit s = true -> no_digit (QString.skip_spaces s) = true.
Proof.
  induction s as [|c s IH]; simpl; intros H; [reflexivity|].
  apply andb_prop in H as [Hc Hs].
  destruct (QString.is_space c); [auto|]. simpl. now rewrite Hc, Hs.
Qed.

Lemma no_digit_drop_trailing_spaces (s : string) :
  no_digit s = true -> no_digit (QString.drop_trailing_spaces s) = true.
Proof.
  induction s as [|c s IH]; simpl; intros H; [reflexivity|].
  apply andb_prop in H as [Hc Hs]. specialize (IH Hs).
  destruct (QString.drop_trailing_spaces s) as [|d r].
  - destruct (QString.is_space c); simpl; [reflexivity | now rewrite Hc].
  - change (no_digit (String c (String d r)) = true). simpl.
    simpl in IH. now rewrite Hc, IH.
Qed.

Lemma unsigned_value_no_digit (s : string) :
  no_digit s = true -> QString.unsigned_value s = None.
Proof.
  destruct s as [|c s]; [reflexivity|]. simpl. intros H.
  apply andb_prop in H as [Hc _]. unfold QString.unsigned_value. simpl.
  apply negb_true_iff in Hc. now rewrite Hc.
Qed.

Lemma toInt_ok_no_digit (s : string) :
  no_digit s = true -> QString.toInt_ok s = None.
Proof.
  intros H. unfold QString.toInt_ok, QString.toInteger, QString.trimmed.
  pose proof (no_digit_drop_trailing_spaces _ (no_digit_skip_spaces _ H)) as Ht.
  destruct (QString.drop_trailing_spaces (QString.skip_spaces s)) as [|c r];
    [reflexivity|].
  pose proof Ht as Ht'. simpl in Ht'. apply andb_prop in Ht' as [_ Hr].
  destruct (Ascii.eqb c "-"); [now rewrite (unsigned_value_no_digit r Hr)|].
  destruct (Ascii.eqb c "+"); [now rewrite (unsigned_value_no_digit r Hr)|].
  now rewrite (unsigned_value_no_digit _ Ht).
Qed.

Lemma toInt_failed (s : string) :
  QString.toInt_ok s = None -> QString.toInt s = 0.
Proof. unfold QString.toInt. now intros ->. Qed.

Lemma split_no_digit (sep : ascii) (s : string) :
  no_digit s = true ->
  Forall (fun part => no_digit part = true) (QString.split sep s).
Proof.
  induction s as [|c s IH]; simpl; intros H.
  - constructor; [reflexivity | constructor].
  - apply andb_prop in H as [Hc Hs]. specialize (IH Hs).
    destruct (Ascii.eqb c sep).
    + constructor; [reflexivity | exact IH].
    + destruct (QString.split sep s) as [|p ps].
      * constructor; [simpl; now rewrite Hc | constructor].
      * inversion IH as [|? ? Hp Hps]; subst.
        constructor; [simpl; now rewrite Hc, Hp | exact Hps].
Qed.

Lemma part_at_unparsed (parts : list string) (i : nat) :
  QString.toInt_ok (nth i parts EmptyString) = None -> part_at parts i = 0.
Proof.
  intros H. unfold part_at.
  destruct (i <? List.length parts)%nat; [now apply toInt_failed | reflexivity].
Qed.

Lemma skipn_nth_cons (l : list Z) :
  forall i, (i < List.length l)%nat -> skipn i l = nth i l 0 :: skipn (S i) l.
Proof.
  induction l as [|x l IH]; intros i Hi; [simpl in Hi; lia|].
  destruct i as [|i]; [reflexivity|].
  simpl in Hi. cbn [skipn nth]. rewrite (IH i) by lia. reflexivity.
Qed.

Lemma length_pad_zeros (n : nat) (fields : list Z) :
  (List.length fields <= n)%nat -> List.length (pad_zeros n fields) = n.
Proof.
  intros H. unfold pad_zeros. rewrite length_app, repeat_length. lia.
Qed.

(** The padded list of parsed fields holds, at each index, what the ternary
    of the loop computes. *)
Lemma nth_pad_zeros (n : nat) (parts : list string) (i : nat) :
  nth i (pad_zeros n (map QString.toInt parts)) 0 = part_at parts i.
Proof.
  unfold pad_zeros, part_at.
  destruct (Nat.ltb_spec i (List.length parts)) as [Hi|Hi].
  - rewrite app_nth1 by (rewrite length_map; exact Hi).
    change 0 with (QString.toInt EmptyString). apply map_nth.
  - rewrite app_nth2 by (rewrite length_map; exact Hi).
    apply nth_repeat.
Qed.

(** The loop of the code and the pairwise comparison of the padded lists
    agree from every index on. *)
Lemma version_loop_pairs (vp mp : list string) (N : nat) :
  (List.length vp <= N)%nat -> (List.length mp <= N)%nat ->
  forall n i, (i + n = N)%nat ->
    version_loop vp mp n i =
    first_difference
      (combine (skipn i (pad_zeros N (map QString.toInt vp)))
               (skipn i (pad_zeros N (map QString.toInt mp)))).
Proof.
  intros Hv Hm.
  pose proof (length_pad_zeros N (map QString.toInt vp)
                ltac:(rewrite length_map; exact Hv)) as Lv.
  pose proof (length_pad_zeros N (map QString.toInt mp)
                ltac:(rewrite length_map; exact Hm)) as Lm.
  induction n as [|n IH]; intros i Hi.
  - rewrite !skipn_all2 by lia. reflexivity.
  - rewrite (skipn_nth_cons (pad_zeros N (map QString.toInt vp)) i) by lia.
    rewrite (skipn_nth_cons (pad_zeros N (map QString.toInt mp)) i) by lia.
    rewrite !nth_pad_zeros. cbn [combine first_difference version_loop].
    rewrite (IH (S i)) by lia. reflexivity.
Qed.

(** [is_version_supported] computes the comparison the specification words:
    split on the dot, parse each field with [toInt], pad with zeros, decide
    at the first difference. *)
Lemma is_version_supported_refines (a b : string) :
  is_version_supported a b =
  zero_padded_supported (map QString.toInt (QString.split "." a))
                        (map QString.toInt (QString.split "." b)).
Proof.
  unfold is_version_supported, zero_padded_supported. rewrite !length_map.
  exact (version_loop_pairs _ _ _ (Nat.le_max_l _ _) (Nat.le_max_r _ _)
           _ 0%nat eq_refl).
Qed.

Lemma map_toInt_no_digit (parts : list string) :
  Forall (fun part => no_digit part = true) parts ->
  map QString.toInt parts = repeat 0 (List.length parts).
Proof.
  induction 1 as [|p parts Hp _ IH]; [reflexivity|].
  cbn [map List.length repeat].
  rewrite IH, (toInt_failed p (toInt_ok_no_digit p Hp)). reflexivity.
Qed.

(** C9: the comparison is a total function of its two strings, and what it
    returns is the zero-padded comparison of the fields as [toInt] reads
    them, where a field that does not parse (text without digits, an empty
    field) is the number 0.  So a candidate without any digit compares as a
    version of zeros against every required version: it is supported against
    "0.0", and it is not supported against "1.0". *)
Theorem is_version_supported_unparsed_fields (candidate : string) :
  no_digit candidate = true ->
  (forall parts i,
      QString.toInt_ok (nth i parts EmptyString) = None -> part_at parts i = 0)
  /\ QString.toInt EmptyString = 0
  /\ (forall i, part_at (QString.split "." candidate) i = 0)
  /\ is_version_supported candidate "0.0" = true
  /\ (forall part, QString.toInt_ok part = None -> QString.toInt part = 0)
  /\ (forall a b,
        is_version_supported a b =
        zero_padded_supported (map QString.toInt (QString.split "." a))
                              (map QString.toInt (QString.split "." b)))
  /\ (forall required,
        is_version_supported candidate required =
        zero_padded_supported
          (repeat 0 (List.length (QString.split "." candidate)))
          (map QString.toInt (QString.split "." required)))
  /\ is_version_supported candidate "1.0" = false.
Proof.
  intros H.
  assert (Hparts : forall i, part_at (QString.split "." candidate) i = 0).
  { intros i. apply part_at_unparsed. apply toInt_ok_no_digit.
    pose proof (split_no_digit "." candidate H) as Hall.
    destruct (Nat.lt_ge_cases i (List.length (QString.split "." candidate))) as [Hi|Hi].
    - rewrite Forall_forall in Hall. apply Hall. now apply nth_In.
    - now rewrite nth_overflow. }
  split; [exact part_at_unparsed|]. split; [reflexivity|]. split; [exact Hparts|].
  split.
  { unfold is_version_supported. apply version_loop_equal.
    intros j _. simpl. rewrite Hparts.
    unfold part_at. simpl. do 2 (destruct j as [|j]; [reflexivity|]). reflexivity. }
  split; [exact toInt_failed|]. split; [exact is_version_supported_refines|].
  split.
  { intros required. rewrite is_version_supported_refines.
    now rewrite (map_toInt_no_digit _ (split_no_digit "." candidate H)). }
  unfold is_version_supported.
  destruct (QString.split "." candidate) as [|p ps] eqn:Hsplit.
  { pose proof (split_no_digit "." candidate H) as Hall.
    destruct candidate as [|c r]; [discriminate Hsplit|]. simpl in Hsplit.
    destruct (Ascii.eqb c "."); [discriminate Hsplit|].
    destruct (QString.split "." r); discriminate Hsplit. }
  assert (Hturns : exists t, Nat.max (List.length (p :: ps))
                                     (List.length (QString.split "." "1.0")) = S t).
  { exists (Nat.max (List.length ps) 1). simpl. lia. }
  destruct Hturns as [t ->]. cbn [version_loop].
  rewrite (Hparts 0%nat).
  change (part_at (QString.split "." "1.0") 0) with 1. reflexivity.
Qed.

Lemma is_version_supported_unparsed_fields_witness :
  is_version_supported "beta.x" "0.0" = true
  /\ is_version_supported "beta.x" "1.0" = false
  /\ is_version_supported "beta.x" "0.0.1" =
     zero_padded_supported [0; 0] [0; 0; 1].
Proof.
  destruct (is_version_supported_unparsed_fields "beta.x" eq_refl)
    as (_ & _ & _ & Hzero & _ & _ & Hreq & Hone).
  split; [exact Hzero|]. split; [exact Hone|]. exact (Hreq "0.0.1").
Defined.

(** ** Traces *)

Lemma events_since_app (s s' : State) (ev : list Event) :
  trace s' = trace s ++ ev -> events_since s s' = ev.
Proof.
  intros H. unfold events_since. rewrite H.
  rewrite skipn_app, skipn_all, Nat.sub_diag. reflexivity.
Qed.

Lemma opened_app (a b : list Event) : opened (a ++ b) = opened a ++ opened b.
Proof.
  induction a as [|e a IH]; [reflexivity|].
  destruct e; simpl; rewrite IH; reflexivity.
Qed.

Lemma probed_app (a b : list Event) : probed (a ++ b) = probed a ++ probed b.
Proof.
  induction a as [|e a IH]; [reflexivity|].
  destruct e; simpl; rewrite IH; reflexivity.
Qed.

Lemma deleted_app (a b : list Event) : deleted (a ++ b) = deleted a ++ deleted b.
Proof.
  induction a as [|e a IH]; [reflexivity|].
  destruct e; simpl; rewrite IH; reflexivity.
Qed.

Lemma destroyed_app (a b : list Event) :
  destroyed (a ++ b) = destroyed a ++ destroyed b.
Proof.
  induction a as [|e a IH]; [reflexivity|].
  destruct e; simpl; rewrite IH; reflexivity.
Qed.

Lemma registered_app (a b : list Event) :
  registered (a ++ b) = registered a ++ registered b.
Proof.
  induction a as [|e a IH]; [reflexivity|].
  destruct e; simpl; rewrite IH; reflexivity.
Qed.

Lemma errors_app (a b : list Event) : errors (a ++ b) = errors a ++ errors b.
Proof.
  induction a as [|e a IH]; [reflexivity|].
  destruct e as [[] ?| | | | | | | | | | | | | |]; simpl; rewrite IH; reflexivity.
Qed.

(** A run of lookups opens, deletes, destroys and registers nothing and
    logs no error. *)
Lemma lookups_are_quiet (ev : list Event) :
  forallb is_lookup ev = true ->
  opened ev = [] /\ deleted ev = [] /\ destroyed ev = []
  /\ registered ev = [] /\ errors ev = [].
Proof.
  induction ev as [|e ev IH]; simpl; intros H; [repeat split|].
  apply andb_prop in H as [He Hev]. specialize (IH Hev).
  destruct IH as (? & ? & ? & ? & ?).
  destruct e as [[] ?| | | | | | | | | | | | | |]; simpl in *;
    try discriminate; repeat split; assumption.
Qed.

Lemma same_globals_refl (s : State) : same_globals s s.
Proof. repeat split. Qed.

Lemma same_globals_trans (s1 s2 s3 : State) :
  same_globals s1 s2 -> same_globals s2 s3 -> same_globals s1 s3.
Proof.
  unfold same_globals. intros (? & ? & ? & ? & ?) (? & ? & ? & ? & ?).
  repeat split; congruence.
Qed.

(** ** The locator *)

Section Locator.

Variable w : World.

Lemma emit_run (e : Event) (s : State) :
  same_globals s (snd (emit e s)) /\ trace (snd (emit e s)) = trace s ++ [e].
Proof. repeat split. Qed.

(** One turn of the first-match loop. *)
Lemma locate_first_cons (x : string) (rest : list string) (s : State) :
  locate_first w (x :: rest) s =
  let s' := snd (emit (EvFileInfo (temp_path w x))
                   (snd (emit (EvLog LOG_DEBUG "load_ndilib: Trying '%s'") s))) in
  if is_regular_file w (temp_path w x) then (temp_path w x, s')
  else locate_first w rest s'.
Proof.
  simpl. unfold bind at 1 2. unfold obs_log. simpl.
  destruct (is_regular_file w (temp_path w x)); reflexivity.
Qed.

Lemma probe_turn (x : string) (s : State) :
  let s' := snd (emit (EvFileInfo (temp_path w x))
                   (snd (emit (EvLog LOG_DEBUG "load_ndilib: Trying '%s'") s))) in
  same_globals s s'
  /\ trace s' = trace s ++ [EvLog LOG_DEBUG "load_ndilib: Trying '%s'";
                            EvFileInfo (temp_path w x)].
Proof.
  simpl. split; [repeat split|]. now rewrite <- app_assoc.
Qed.

(** The first-match loop stops at the first location whose file exists and
    has probed nothing beyond it. *)
Lemma locate_first_found (before : list string) (d : string) (after : list string) :
  forall s,
    (forall x, In x before -> is_regular_file w (temp_path w x) = false) ->
    is_regular_file w (temp_path w d) = true ->
    fst (locate_first w (before ++ d :: after) s) = temp_path w d
    /\ same_globals s (snd (locate_first w (before ++ d :: after) s))
    /\ exists ev,
        trace (snd (locate_first w (before ++ d :: after) s)) = trace s ++ ev
        /\ forallb is_lookup ev = true
        /\ probed ev = map (temp_path w) (before ++ [d]).
Proof.
  induction before as [|x before IH]; intros s Hbefore Hd.
  - rewrite app_nil_l, locate_first_cons. cbv zeta. rewrite Hd.
    destruct (probe_turn d s) as [Hg Ht].
    split; [reflexivity|]. split; [exact Hg|].
    eexists. split; [exact Ht|]. split; reflexivity.
  - rewrite <- app_comm_cons, locate_first_cons. cbv zeta.
    rewrite (Hbefore x (or_introl eq_refl)).
    destruct (probe_turn x s) as [Hg0 Ht0]. cbv zeta in Hg0, Ht0.
    set (s' := snd (emit (EvFileInfo (temp_path w x)) _)) in *.
    destruct (IH s' (fun y Hy => Hbefore y (or_intror Hy)) Hd)
      as (Hr & Hg & ev & Ht & Hq & Hp).
    split; [exact Hr|]. split; [exact (same_globals_trans _ _ _ Hg0 Hg)|].
    exists ([EvLog LOG_DEBUG "load_ndilib: Trying '%s'";
             EvFileInfo (temp_path w x)] ++ ev).
    rewrite Ht, Ht0, <- app_assoc. split; [reflexivity|].
    split; [exact Hq|]. simpl. now rewrite Hp.
Qed.

(** Without any existing file the loop probes every location and leaves
    [lib_path] empty. *)
Lemma locate_first_none (locs : list string) :
  forall s,
    (forall x, In x locs -> is_regular_file w (temp_path w x) = false) ->
    fst (locate_first w locs s) = EmptyString
    /\ same_globals s (snd (locate_first w locs s))
    /\ exists ev,
        trace (snd (locate_first w locs s)) = trace s ++ ev
        /\ forallb is_lookup ev = true
        /\ probed ev = map (temp_path w) locs.
Proof.
  induction locs as [|x locs IH]; intros s Hnone.
  - simpl. split; [reflexivity|]. split; [apply same_globals_refl|].
    exists []. rewrite app_nil_r. repeat split.
  - rewrite locate_first_cons. cbv zeta.
    rewrite (Hnone x (or_introl eq_refl)).
    destruct (probe_turn x s) as [Hg0 Ht0]. cbv zeta in Hg0, Ht0.
    set (s' := snd (emit (EvFileInfo (temp_path w x)) _)) in *.
    destruct (IH s' (fun y Hy => Hnone y (or_intror Hy)))
      as (Hr & Hg & ev & Ht & Hq & Hp).
    split; [exact Hr|]. split; [exact (same_globals_trans _ _ _ Hg0 Hg)|].
    exists ([EvLog LOG_DEBUG "load_ndilib: Trying '%s'";
             EvFileInfo (temp_path w x)] ++ ev).
    rewrite Ht, Ht0, <- app_assoc. split; [reflexivity|].
    split; [exact Hq|]. simpl. now rewrite Hp.
Qed.

(** Whatever the files, the loop only looks. *)
Lemma locate_first_frame (locs : list string) :
  forall s,
    same_globals s (snd (locate_first w locs s))
    /\ exists ev,
        trace (snd (locate_first w locs s)) = trace s ++ ev
        /\ forallb is_lookup ev = true.
Proof.
  induction locs as [|x locs IH]; intros s.
  - simpl. split; [apply same_globals_refl|]. exists []. now rewrite app_nil_r.
  - rewrite locate_first_cons. cbv zeta.
    destruct (probe_turn x s) as [Hg0 Ht0]. cbv zeta in Hg0, Ht0.
    set (s' := snd (emit (EvFileInfo (temp_path w x)) _)) in *.
    destruct (is_regular_file w (temp_path w x)).
    + split; [exact Hg0|]. eexists. split; [exact Ht0 | reflexivity].
    + destruct (IH s') as (Hg & ev & Ht & Hq).
      split; [exact (same_globals_trans _ _ _ Hg0 Hg)|].
      exists ([EvLog LOG_DEBUG "load_ndilib: Trying '%s'";
               EvFileInfo (temp_path w x)] ++ ev).
      rewrite Ht, Ht0, <- app_assoc. split; [reflexivity | exact Hq].
Qed.

(** One file name of the Linux inner loop. *)
Lemma scan_file_names_running_max (location : string) (file_names : list string) :
  forall acc,
    scan_file_names w location file_names acc =
    running_max
      (flat_map
         (fun file_name =>
            match QRegularExpression.libndi_match file_name with
            | Some captured =>
                [(QString.toInt captured, absoluteFilePath w location file_name)]
            | None => []
            end) file_names) acc.
Proof.
  induction file_names as [|f fs IH]; intros [mv lp]; [reflexivity|].
  cbn [scan_file_names flat_map].
  destruct (QRegularExpression.libndi_match f) as [captured|]; simpl.
  - rewrite IH. reflexivity.
  - rewrite IH. reflexivity.
Qed.

Lemma running_max_app (a b : list (Z * string)) :
  forall acc, running_max (a ++ b) acc = running_max b (running_max a acc).
Proof.
  induction a as [|[v p] a IH]; intros acc; [reflexivity|].
  simpl. apply IH.
Qed.

(** The Linux loop lists every location and returns the running maximum of
    all the candidates. *)
Lemma locate_linux_run (locs : list string) :
  forall acc s,
    fst (locate_linux w locs acc s) = running_max (candidates w locs) acc
    /\ same_globals s (snd (locate_linux w locs acc s))
    /\ exists ev,
        trace (snd (locate_linux w locs acc s)) = trace s ++ ev
        /\ forallb is_lookup ev = true
        /\ probed ev = locs.
Proof.
  induction locs as [|x locs IH]; intros acc s.
  - simpl. split; [reflexivity|]. split; [apply same_globals_refl|].
    exists []. rewrite app_nil_r. repeat split.
  - cbn [locate_linux]. unfold bind at 1 2 3. unfold entryList.
    unfold bind at 1 2 3. cbn [emit ret].
    set (s' := {| loaded_lib := _ |}).
    destruct (IH (scan_file_names w x
                    (filter QRegularExpression.name_filter_libndi (files_in w x)) acc) s')
      as (Hr & Hg & ev & Ht & Hq & Hp).
    split.
    { rewrite Hr. unfold candidates. cbn [flat_map].
      rewrite running_max_app, scan_file_names_running_max. reflexivity. }
    split; [exact Hg|].
    exists (EvEntryList x :: ev). rewrite Ht. subst s'. cbn [trace].
    rewrite <- app_assoc. split; [reflexivity|]. split; [exact Hq|].
    simpl. now rewrite Hp.
Qed.

End Locator.

(** ** The running maximum *)

Lemma running_max_spec (cands : list (Z * string)) :
  forall acc,
    (forall v p, In (v, p) cands -> v <= fst (running_max cands acc))
    /\ ((running_max cands acc = acc
         /\ forall v p, In (v, p) cands -> v <= fst acc)
        \/ exists before after,
            cands = before ++ running_max cands acc :: after
            /\ fst acc < fst (running_max cands acc)
            /\ forall v p, In (v, p) before -> v < fst (running_max cands acc)).
Proof.
  induction cands as [|[v p] rest IH]; intros acc.
  - simpl. split; [intros ? ? []|]. left. split; [reflexivity | intros ? ? []].
  - cbn [running_max].
    destruct (Z.gtb_spec v (fst acc)) as [Hgt|Hle].
    + destruct (IH (v, p)) as [Hall Hcase]. cbn [fst] in *.
      assert (Hv : v <= fst (running_max rest (v, p))).
      { destruct Hcase as [[-> _]|(b & a & _ & Hlt & _)]; simpl; lia. }
      split.
      { intros v' p' [Heq|Hin]; [inversion Heq; subst; exact Hv | eauto]. }
      right. destruct Hcase as [[Heq Hrest]|(b & a & Hsplit & Hlt & Hb)].
      * exists [], rest. rewrite Heq. simpl. repeat split; [lia | intros ? ? []].
      * exists ((v, p) :: b), a. rewrite Hsplit at 1. simpl.
        repeat split; [lia|].
        intros v' p' [Heq'|Hin]; [inversion Heq'; subst; exact Hlt | eauto].
    + destruct (IH acc) as [Hall Hcase].
      assert (Hacc : fst acc <= fst (running_max rest acc)).
      { destruct Hcase as [[-> _]|(b & a & _ & Hlt & _)]; lia. }
      split.
      { intros v' p' [Heq|Hin]; [inversion Heq; subst; lia | eauto]. }
      destruct Hcase as [[Heq Hrest]|(b & a & Hsplit & Hlt & Hb)].
      * left. split; [exact Heq|].
        intros v' p' [Heq'|Hin]; [inversion Heq'; subst; lia | eauto].
      * right. exists ((v, p) :: b), a. rewrite Hsplit at 1. simpl.
        repeat split; [exact Hlt|].
        intros v' p' [Heq'|Hin]; [inversion Heq'; subst; lia | eauto].
Qed.

(** ** File names of the form libndi.so.<N> *)

Lemma is_digit_not_space (c : ascii) :
  QString.is_digit c = true -> QString.is_space c = false.
Proof.
  destruct c as [[] [] [] [] [] [] [] []]; vm_compute; intros H;
    first [reflexivity | discriminate H].
Qed.

Lemma is_digit_not_sign (c : ascii) :
  QString.is_digit c = true ->
  Ascii.eqb c "-" = false /\ Ascii.eqb c "+" = false.
Proof.
  destruct c as [[] [] [] [] [] [] [] []]; vm_compute; intros H;
    first [split; reflexivity | discriminate H].
Qed.

Lemma digit_value_range (c : ascii) :
  QString.is_digit c = true -> 0 <= QString.digit_value c <= 9.
Proof.
  unfold QString.is_digit, QString.digit_value. cbv zeta. intros H.
  apply andb_prop in H as [H1 H2].
  apply Nat.leb_le in H1. apply Nat.leb_le in H2. lia.
Qed.

Lemma span_digits_only (ds : string) :
  only_digits ds = true ->
  QRegularExpression.span_digits ds = (ds, EmptyString).
Proof.
  induction ds as [|c ds IH]; simpl; intros H; [reflexivity|].
  apply andb_prop in H as [Hc Hds]. rewrite Hc, (IH Hds). reflexivity.
Qed.

Lemma trimmed_only_digits (ds : string) :
  only_digits ds = true -> QString.trimmed ds = ds.
Proof.
  intros H. unfold QString.trimmed.
  assert (Hskip : QString.skip_spaces ds = ds).
  { destruct ds as [|c ds]; [reflexivity|]. simpl in *.
    apply andb_prop in H as [Hc _]. now rewrite (is_digit_not_space c Hc). }
  rewrite Hskip. clear Hskip.
  induction ds as [|c ds IH]; [reflexivity|]. simpl in *.
  apply andb_prop in H as [Hc Hds]. rewrite (IH Hds).
  destruct ds; [now rewrite (is_digit_not_space c Hc) | reflexivity].
Qed.

Lemma digits_value_only (ds : string) :
  only_digits ds = true ->
  forall acc, 0 <= acc ->
    exists v, QString.digits_value acc ds = Some v /\ acc <= v.
Proof.
  induction ds as [|c ds IH]; simpl; intros H acc Hacc.
  - exists acc. split; [reflexivity | lia].
  - apply andb_prop in H as [Hc Hds]. rewrite Hc.
    pose proof (digit_value_range c Hc) as Hr.
    destruct (IH Hds (10 * acc + QString.digit_value c) ltac:(lia)) as (v & Hv & Hle).
    exists v. split; [exact Hv | lia].
Qed.

(** [toInt] reads a string of digits as the number it writes in base 10, and
    as 0 when that number does not fit an int. *)
Lemma toInt_only_digits (ds : string) :
  only_digits ds = true -> QString.isEmpty ds = false ->
  exists N, QString.digits_value 0 ds = Some N /\ 0 <= N
            /\ QString.toInt ds = if N <=? QString.INT_MAX then N else 0.
Proof.
  intros H Hne.
  destruct (digits_value_only ds H 0 ltac:(lia)) as (N & HN & Hpos).
  exists N. split; [exact HN|]. split; [exact Hpos|].
  unfold QString.toInt, QString.toInt_ok, QString.toInteger.
  rewrite (trimmed_only_digits ds H).
  destruct ds as [|c r]; [discriminate Hne|].
  pose proof H as H'. simpl in H'. apply andb_prop in H' as [Hc _].
  destruct (is_digit_not_sign c Hc) as [-> ->].
  unfold QString.unsigned_value. cbn [QString.isEmpty]. rewrite HN.
  replace (QString.INT_MIN <=? N) with true
    by (symmetry; apply Z.leb_le; unfold QString.INT_MIN; lia).
  cbn [andb]. destruct (N <=? QString.INT_MAX); reflexivity.
Qed.

(** A file named libndi.so.<digits> passes the name filter, and the pattern
    captures exactly its digits. *)
Lemma libndi_match_versioned (ds : string) :
  only_digits ds = true -> QString.isEmpty ds = false ->
  QRegularExpression.name_filter_libndi ("libndi.so." ++ ds)%string = true
  /\ QRegularExpression.libndi_match ("libndi.so." ++ ds)%string = Some ds.
Proof.
  intros H Hne. split; [reflexivity|].
  change ("libndi.so." ++ ds)%string
    with (String "l" ("ibndi.so." ++ ds)%string).
  cbn [QRegularExpression.libndi_match].
  replace (QRegularExpression.libndi_match_here (String "l" ("ibndi.so." ++ ds)%string))
    with (Some ds); [reflexivity|].
  unfold QRegularExpression.libndi_match_here. simpl.
  rewrite (span_digits_only ds H), Hne. reflexivity.
Qed.

(** ** What the locator selects *)

Lemma locate_first_pure (w : World) (locs : list string) :
  forall s s', fst (locate_first w locs s) = fst (locate_first w locs s').
Proof.
  induction locs as [|x locs IH]; intros s s'; [reflexivity|].
  rewrite !locate_first_cons. cbv zeta.
  destruct (is_regular_file w (temp_path w x)); [reflexivity | apply IH].
Qed.

Lemma locate_on_linux (w : World) (s : State) :
  platform w = Q_OS_LINUX ->
  locate w s =
  (snd (fst (locate_linux w (locations w) (0, EmptyString) s)),
   snd (locate_linux w (locations w) (0, EmptyString) s)).
Proof.
  intros H. unfold locate. rewrite H. unfold bind, ret.
  destruct (locate_linux w (locations w) (0, EmptyString) s) as [[mv lp] s'].
  reflexivity.
Qed.

Lemma locate_elsewhere (w : World) (s : State) :
  platform w <> Q_OS_LINUX -> locate w s = locate_first w (locations w) s.
Proof.
  intros H. unfold locate. destruct (platform w); [contradiction | |]; reflexivity.
Qed.

(** The locator only looks, and what it selects does not depend on the
    state it runs in. *)
Lemma locate_run (w : World) (s : State) :
  fst (locate w s) = selected w
  /\ same_globals s (snd (locate w s))
  /\ exists ev, trace (snd (locate w s)) = trace s ++ ev
                /\ forallb is_lookup ev = true.
Proof.
  unfold selected.
  destruct (platform w) eqn:Hp.
  - rewrite !locate_on_linux by exact Hp. cbn [fst snd].
    destruct (locate_linux_run w (locations w) (0, EmptyString) s)
      as (Hr & Hg & ev & Ht & Hq & _).
    destruct (locate_linux_run w (locations w) (0, EmptyString) initial_state)
      as (Hr' & _).
    split; [now rewrite Hr, Hr'|]. split; [exact Hg|]. now exists ev.
  - rewrite !locate_elsewhere by (rewrite Hp; discriminate).
    destruct (locate_first_frame w (locations w) s) as (Hg & ev & Ht & Hq).
    split; [apply locate_first_pure|]. split; [exact Hg|]. now exists ev.
  - rewrite !locate_elsewhere by (rewrite Hp; discriminate).
    destruct (locate_first_frame w (locations w) s) as (Hg & ev & Ht & Hq).
    split; [apply locate_first_pure|]. split; [exact Hg|]. now exists ev.
Qed.

(** C5, as the code has it: on Linux the locator lists every candidate
    directory, whether or not an earlier one held a match; a file named
    libndi.so.<N> enters the comparison with the number N its digits write
    (0 when N does not fit an int); the file selected is the first one, in
    scan order, that carries the highest number of all directories, provided
    that number is at least 1; when no number is at least 1 nothing is
    selected.  With libndi.so.3, libndi.so.10 and libndi.so.2 the file
    suffixed .10 is selected. *)
Theorem locate_linux_highest_version (w : World) (s : State) :
  platform w = Q_OS_LINUX ->
  let cands := candidates w (locations w) in
  let lib_path := fst (locate w s) in
  probed (events_since s (snd (locate w s))) = locations w
  /\ (forall location ds,
        In location (locations w) ->
        In ("libndi.so." ++ ds)%string (files_in w location) ->
        only_digits ds = true -> QString.isEmpty ds = false ->
        exists N, QString.digits_value 0 ds = Some N
                  /\ In (if N <=? QString.INT_MAX then N else 0,
                         absoluteFilePath w location ("libndi.so." ++ ds)%string)
                        cands)
  /\ ((forall v p, In (v, p) cands -> v <= 0) -> lib_path = EmptyString)
  /\ (forall v p, In (v, p) cands -> 0 < v ->
      exists vmax before after,
        cands = before ++ (vmax, lib_path) :: after
        /\ 0 < vmax
        /\ (forall v' p', In (v', p') before -> v' < vmax)
        /\ (forall v' p', In (v', p') cands -> v' <= vmax))
  /\ fst (locate (linux_world files_3_10_2 NoEntryPoint) initial_state)
     = "/usr/local/lib/libndi.so.10".
Proof.
  intros Hp cands lib_path. subst lib_path.
  rewrite (locate_on_linux w s Hp). cbn [fst snd].
  destruct (locate_linux_run w (locations w) (0, EmptyString) s)
    as (Hr & _ & ev & Ht & _ & Hprobed).
  rewrite Hr. fold cands.
  destruct (running_max_spec cands (0, EmptyString)) as [Hall Hcase].
  cbn [fst] in Hcase.
  split; [now rewrite (events_since_app _ _ _ Ht)|].
  split.
  { intros location ds Hloc Hfile Hds Hne.
    destruct (toInt_only_digits ds Hds Hne) as (N & HN & _ & Hint).
    destruct (libndi_match_versioned ds Hds Hne) as [Hfilter Hmatch].
    exists N. split; [exact HN|].
    unfold cands, candidates. apply in_flat_map. exists location.
    split; [exact Hloc|]. unfold candidates_in. apply in_flat_map.
    exists ("libndi.so." ++ ds)%string. split.
    - apply filter_In. split; [exact Hfile | exact Hfilter].
    - rewrite Hmatch, Hint. left. reflexivity. }
  split.
  { intros Hlow.
    destruct Hcase as [[-> _]|(b & a & Hsplit & Hlt & _)]; [reflexivity|].
    destruct (running_max cands (0, EmptyString)) as [vmax lp] eqn:Hmax.
    cbn [fst] in Hlt.
    assert (Hin : In (vmax, lp) cands) by (rewrite Hsplit; apply in_elt).
    specialize (Hlow vmax lp Hin). lia. }
  split.
  { intros v p Hin Hv.
    destruct Hcase as [[_ Hrest]|(b & a & Hsplit & Hlt & Hb)].
    - specialize (Hrest v p Hin). lia.
    - destruct (running_max cands (0, EmptyString)) as [vmax lp] eqn:Hmax.
      cbn [fst snd] in *. exists vmax, b, a. repeat split; assumption. }
  reflexivity.
Qed.

Lemma locate_linux_highest_version_witness :
  probed (events_since initial_state
            (snd (locate (linux_world files_3_10_2 NoEntryPoint) initial_state)))
  = locations (linux_world files_3_10_2 NoEntryPoint)
  /\ exists vmax before after,
      candidates (linux_world files_3_10_2 NoEntryPoint)
                 (locations (linux_world files_3_10_2 NoEntryPoint))
      = before ++ (vmax, fst (locate (linux_world files_3_10_2 NoEntryPoint)
                                     initial_state)) :: after
      /\ 0 < vmax.
Proof.
  destruct (locate_linux_highest_version
              (linux_world files_3_10_2 NoEntryPoint) initial_state eq_refl)
    as (Hprobed & _ & _ & Hmax & _).
  split; [exact Hprobed|].
  destruct (Hmax 3 "/usr/lib/libndi.so.3" (or_introl eq_refl) eq_refl)
    as (vmax & before & after & Hsplit & Hpos & _).
  exists vmax, before, after. split; [exact Hsplit | exact Hpos].
Defined.

(** C5 as the specification words it fails where the highest number is 0: a
    directory holds libndi.so.0 and no other candidate exists, the pattern
    matches it, and yet no file is selected and nothing is opened. *)
Lemma locate_linux_version_zero_not_selected :
  candidates (linux_world files_0 (EntryPoint (Some ndi_6_2_1)))
             (locations (linux_world files_0 (EntryPoint (Some ndi_6_2_1))))
  = [(0, "/usr/lib/libndi.so.0")]
  /\ fst (locate (linux_world files_0 (EntryPoint (Some ndi_6_2_1))) initial_state)
     = EmptyString
  /\ fst (load_ndilib (linux_world files_0 (EntryPoint (Some ndi_6_2_1))) initial_state)
     = None
  /\ opened (trace (snd (load_ndilib (linux_world files_0 (EntryPoint (Some ndi_6_2_1)))
                                     initial_state))) = [].
Proof. repeat split. Qed.

(** C6: built for macOS or Windows, the locator probes, for the file named
    NDILIB_LIBRARY_NAME, the bundled Frameworks directory next to the
    application first, then the directory of NDI_RUNTIME_DIR_V6 and the one
    of NDILIB_REDIST_FOLDER (each when set and not empty), then the system
    directories (macOS), then the vendor directories; it stops at the first
    that exists as a regular file, which is selected, and probes nothing
    after it; without any it has probed them all, in this order, and selects
    nothing.  A bundled file wins over any other. *)
Theorem locate_first_match (w : World) (s : State) :
  platform w <> Q_OS_LINUX ->
  let file_in := fun dir =>
    cleanPath w (absoluteFilePath w dir (NDILIB_LIBRARY_NAME w)) in
  let from_env := fun name =>
    if QString.isEmpty (qgetenv w name) then [] else [qgetenv w name] in
  let bundled := cleanPath w (applicationDirPath w ++ "/../Frameworks")%string in
  let priority :=
    [bundled]
    ++ from_env "NDI_RUNTIME_DIR_V6"
    ++ from_env "NDILIB_REDIST_FOLDER"
    ++ match platform w with
       | Q_OS_MACOS => ["/usr/lib"; "/usr/local/lib"]
       | _ => []
       end
    ++ ["/Library/NDI SDK for Apple/lib"; "/Library/NDI/lib";
        "/opt/homebrew/opt/libndi/lib"] in
  let lib_path := fst (locate w s) in
  let probes := probed (events_since s (snd (locate w s))) in
  (forall before d after,
      priority = before ++ d :: after ->
      (forall x, In x before -> is_regular_file w (file_in x) = false) ->
      is_regular_file w (file_in d) = true ->
      lib_path = file_in d /\ probes = map file_in (before ++ [d]))
  /\ ((forall x, In x priority -> is_regular_file w (file_in x) = false) ->
      lib_path = EmptyString /\ probes = map file_in priority)
  /\ (is_regular_file w (file_in bundled) = true ->
      lib_path = file_in bundled /\ probes = [file_in bundled]).
Proof.
  intros Hp file_in from_env bundled priority lib_path probes.
  subst lib_path probes.
  rewrite (locate_elsewhere w s Hp).
  assert (Hloc : locations w = priority).
  { subst priority bundled from_env.
    unfold locations, frameworksDir, env_location, system_locations, vendor_locations.
    destruct (platform w); [contradiction | reflexivity | reflexivity]. }
  assert (Hfile : forall x, temp_path w x = file_in x) by reflexivity.
  assert (Hmap : forall l, map (temp_path w) l = map file_in l) by reflexivity.
  assert (Hfound : forall before d after,
             priority = before ++ d :: after ->
             (forall x, In x before -> is_regular_file w (file_in x) = false) ->
             is_regular_file w (file_in d) = true ->
             fst (locate_first w (locations w) s) = file_in d
             /\ probed (events_since s (snd (locate_first w (locations w) s)))
                = map file_in (before ++ [d])).
  { intros before d after Hsplit Hbefore Hd. rewrite Hloc, Hsplit.
    destruct (locate_first_found w before d after s Hbefore Hd)
      as (Hr & _ & ev & Ht & _ & Hprobed).
    split; [exact Hr|]. rewrite (events_since_app _ _ _ Ht). exact Hprobed. }
  split; [exact Hfound|]. split.
  - intros Hnone. rewrite Hloc.
    destruct (locate_first_none w priority s Hnone)
      as (Hr & _ & ev & Ht & _ & Hprobed).
    split; [exact Hr|]. rewrite (events_since_app _ _ _ Ht). exact Hprobed.
  - intros Hbundled.
    eapply (Hfound [] bundled); [reflexivity | intros x [] | exact Hbundled].
Qed.

(** On a machine with both variables set: a bundled library wins over the
    ones of NDI_RUNTIME_DIR_V6 and /usr/local/lib, and nothing else is
    probed; without a bundled library the one of NDI_RUNTIME_DIR_V6 wins
    over /usr/local/lib after two probes; without any library the eight
    locations are probed in their order. *)
Lemma locate_first_match_witness :
  (fst (locate (mac_world_env
                  ["/usr/local/lib/libndi.dylib"; "/opt/ndi/v6/libndi.dylib";
                   "/Applications/OBS.app/Contents/Frameworks/libndi.dylib"])
               initial_state)
   = "/Applications/OBS.app/Contents/Frameworks/libndi.dylib"
   /\ probed (events_since initial_state
                (snd (locate (mac_world_env
                                ["/usr/local/lib/libndi.dylib"; "/opt/ndi/v6/libndi.dylib";
                                 "/Applications/OBS.app/Contents/Frameworks/libndi.dylib"])
                             initial_state)))
      = ["/Applications/OBS.app/Contents/Frameworks/libndi.dylib"])
  /\ (fst (locate (mac_world_env
                     ["/usr/local/lib/libndi.dylib"; "/opt/ndi/v6/libndi.dylib"])
                  initial_state)
      = "/opt/ndi/v6/libndi.dylib"
      /\ probed (events_since initial_state
                   (snd (locate (mac_world_env
                                   ["/usr/local/lib/libndi.dylib"; "/opt/ndi/v6/libndi.dylib"])
                                initial_state)))
         = ["/Applications/OBS.app/Contents/Frameworks/libndi.dylib";
            "/opt/ndi/v6/libndi.dylib"])
  /\ (fst (locate (mac_world_env []) initial_state) = EmptyString
      /\ probed (events_since initial_state
                   (snd (locate (mac_world_env []) initial_state)))
         = ["/Applications/OBS.app/Contents/Frameworks/libndi.dylib";
            "/opt/ndi/v6/libndi.dylib";
            "/opt/ndi/redist/libndi.dylib";
            "/usr/lib/libndi.dylib";
            "/usr/local/lib/libndi.dylib";
            "/Library/NDI SDK for Apple/lib/libndi.dylib";
            "/Library/NDI/lib/libndi.dylib";
            "/opt/homebrew/opt/libndi/lib/libndi.dylib"]).
Proof.
  assert (Hp : forall files, platform (mac_world_env files) <> Q_OS_LINUX)
    by (intros files; discriminate).
  split; [|split].
  - destruct (locate_first_match
                (mac_world_env
                   ["/usr/local/lib/libndi.dylib"; "/opt/ndi/v6/libndi.dylib";
                    "/Applications/OBS.app/Contents/Frameworks/libndi.dylib"])
                initial_state (Hp _)) as (_ & _ & Hbundled).
    destruct (Hbundled ltac:(vm_compute; reflexivity)) as [Hsel Hprobes].
    split; [rewrite Hsel | rewrite Hprobes]; vm_compute; reflexivity.
  - destruct (locate_first_match
                (mac_world_env
                   ["/usr/local/lib/libndi.dylib"; "/opt/ndi/v6/libndi.dylib"])
                initial_state (Hp _)) as (Hfirst & _ & _).
    destruct (Hfirst ["/Applications/OBS.app/Contents/Frameworks"]
                     "/opt/ndi/v6/"
                     ["/opt/ndi/redist"; "/usr/lib"; "/usr/local/lib";
                      "/Library/NDI SDK for Apple/lib"; "/Library/NDI/lib";
                      "/opt/homebrew/opt/libndi/lib"]
                     ltac:(vm_compute; reflexivity)
                     ltac:(intros x [<-|[]]; vm_compute; reflexivity)
                     ltac:(vm_compute; reflexivity)) as [Hsel Hprobes].
    split; [rewrite Hsel | rewrite Hprobes]; vm_compute; reflexivity.
  - destruct (locate_first_match (mac_world_env []) initial_state (Hp _))
      as (_ & Hnone & _).
    destruct (Hnone ltac:(intros x _; reflexivity)) as [Hsel Hprobes].
    split; [exact Hsel | rewrite Hprobes; vm_compute; reflexivity].
Defined.

(** ** The loader *)

Lemma QLibrary_eqb_refl (lib : QLibrary) : QLibrary_eqb lib lib = true.
Proof.
  unfold QLibrary_eqb. now rewrite Nat.eqb_refl, String.eqb_refl.
Qed.

Lemma load_ndilib_eq (w : World) (s : State) :
  load_ndilib w s = load_from w (selected w) (snd (locate w s)).
Proof.
  unfold load_ndilib, bind.
  destruct (locate_run w s) as [Hr _].
  destruct (locate w s) as [p s1]. cbn [fst snd] in *. now subst p.
Qed.

Lemma load_from_nothing (w : World) (p : string) (s : State) :
  QString.isEmpty p = true ->
  load_from w p s =
  (None,
   {| loaded_lib := loaded_lib s; ndiLib := ndiLib s;
      next_address := next_address s; live := live s; isLoaded := isLoaded s;
      trace := trace s ++
        [EvLog LOG_ERROR "ERR-404 - NDI library not found, DistroAV cannot continue. Read the wiki and install the NDI Libraries.";
         EvLog LOG_DEBUG "load_ndilib: ERROR: Can't find the NDI library"] |}).
Proof.
  intros H. unfold load_from. rewrite H. cbn.
  rewrite <- !app_assoc. reflexivity.
Qed.

Lemma load_from_unloadable (w : World) (p e : string) (s : State) :
  QString.isEmpty p = false -> image w p = Unloadable e ->
  let lib := {| address := next_address s; fileName := p |} in
  load_from w p s =
  (None,
   {| loaded_lib := None; ndiLib := ndiLib s;
      next_address := S (next_address s);
      live := filter (fun l => negb (QLibrary_eqb l lib)) (live s);
      isLoaded := filter (fun l => negb (QLibrary_eqb l lib)) (isLoaded s);
      trace := trace s ++
        [EvLog LOG_DEBUG "load_ndilib: Found '%s'; attempting to load NDI library...";
         EvNew lib; EvLoad lib false;
         EvLog LOG_ERROR "ERR-402 - Error loading QLibrary with error: '%s'";
         EvLog LOG_DEBUG "load_ndilib: ERROR: QLibrary returned the following error: '%s'";
         EvDelete lib;
         EvLog LOG_ERROR "ERR-404 - NDI library not found, DistroAV cannot continue. Read the wiki and install the NDI Libraries.";
         EvLog LOG_DEBUG "load_ndilib: ERROR: Can't find the NDI library"] |}).
Proof.
  intros H Himg lib. unfold load_from. rewrite H.
  cbn -[QLibrary_eqb]. rewrite Himg. cbn -[QLibrary_eqb].
  fold lib. rewrite (QLibrary_eqb_refl lib). cbn -[QLibrary_eqb].
  rewrite <- !app_assoc. reflexivity.
Qed.

Lemma load_from_no_entry (w : World) (p : string) (s : State) :
  QString.isEmpty p = false -> image w p = NoEntryPoint ->
  let lib := {| address := next_address s; fileName := p |} in
  load_from w p s =
  (None,
   {| loaded_lib := Some lib; ndiLib := ndiLib s;
      next_address := S (next_address s);
      live := lib :: live s; isLoaded := lib :: isLoaded s;
      trace := trace s ++
        [EvLog LOG_DEBUG "load_ndilib: Found '%s'; attempting to load NDI library...";
         EvNew lib; EvLoad lib true;
         EvLog LOG_DEBUG "load_ndilib: NDI library loaded successfully";
         EvResolve lib false;
         EvLog LOG_ERROR "ERR-405 - Error loading the NDI Library from path: '%s'";
         EvLog LOG_DEBUG "load_ndilib: ERROR: NDIlib_v6_load not found in loaded library";
         EvLog LOG_ERROR "ERR-404 - NDI library not found, DistroAV cannot continue. Read the wiki and install the NDI Libraries.";
         EvLog LOG_DEBUG "load_ndilib: ERROR: Can't find the NDI library"] |}).
Proof.
  intros H Himg lib. unfold load_from. rewrite H.
  cbn. repeat (rewrite Himg; cbn). rewrite <- !app_assoc. reflexivity.
Qed.

Lemma load_from_entry (w : World) (p : string) (r : option NDIlib_v6) (s : State) :
  QString.isEmpty p = false -> image w p = EntryPoint r ->
  let lib := {| address := next_address s; fileName := p |} in
  load_from w p s =
  (r,
   {| loaded_lib := Some lib; ndiLib := ndiLib s;
      next_address := S (next_address s);
      live := lib :: live s; isLoaded := lib :: isLoaded s;
      trace := trace s ++
        [EvLog LOG_DEBUG "load_ndilib: Found '%s'; attempting to load NDI library...";
         EvNew lib; EvLoad lib true;
         EvLog LOG_DEBUG "load_ndilib: NDI library loaded successfully";
         EvResolve lib true;
         EvLog LOG_DEBUG "load_ndilib: NDIlib_v6_load found";
         EvEntry lib] |}).
Proof.
  intros H Himg lib. unfold load_from. rewrite H.
  cbn. repeat (rewrite Himg; cbn). rewrite <- !app_assoc. reflexivity.
Qed.

(** What [load_ndilib] leaves behind when the selected file does not yield
    the entry function. *)
Lemma load_ndilib_failure_run (w : World) (s : State) (tail : list Event) (s2 : State) :
  load_from w (selected w) (snd (locate w s)) = (None, s2) ->
  trace s2 = trace (snd (locate w s)) ++ tail ->
  fst (load_ndilib w s) = None
  /\ snd (load_ndilib w s) = s2
  /\ opened (events_since s s2) = opened tail
  /\ deleted (events_since s s2) = deleted tail
  /\ errors (events_since s s2) = errors tail.
Proof.
  intros Hload Htail. rewrite load_ndilib_eq, Hload. cbn [fst snd].
  destruct (locate_run w s) as (_ & _ & ev & Ht & Hq).
  destruct (lookups_are_quiet ev Hq) as (Ho & Hd & _ & _ & He).
  rewrite Ht, <- app_assoc in Htail.
  rewrite (events_since_app _ _ _ Htail).
  rewrite opened_app, deleted_app, errors_app, Ho, Hd, He.
  repeat split.
Qed.

(** C10: once the locator has settled on a file, a failure to open it or to
    find the entry function in it ends [load_ndilib] with the null pointer;
    after the locator's loop exactly one file has been opened, the selected
    one, and nothing more is listed or probed, whatever the other locations
    hold. *)
Theorem load_ndilib_no_fallback (w : World) (s : State) :
  QString.isEmpty (selected w) = false ->
  (forall r, image w (selected w) <> EntryPoint r) ->
  fst (load_ndilib w s) = None
  /\ opened (events_since s (snd (load_ndilib w s))) = [selected w]
  /\ exists tail,
      trace (snd (load_ndilib w s)) = trace (snd (locate w s)) ++ tail
      /\ opened tail = [selected w]
      /\ probed tail = [].
Proof.
  intros Hne Himg.
  destruct (image w (selected w)) as [e| |r] eqn:Hi.
  - pose proof (load_from_unloadable w (selected w) e (snd (locate w s)) Hne Hi) as Hl.
    cbv zeta in Hl.
    destruct (load_ndilib_failure_run w s _ _ Hl eq_refl) as (Hr & Hs & Ho & _).
    split; [exact Hr|]. rewrite Hs. split; [rewrite Ho; reflexivity|].
    eexists. split; [reflexivity|]. split; reflexivity.
  - pose proof (load_from_no_entry w (selected w) (snd (locate w s)) Hne Hi) as Hl.
    cbv zeta in Hl.
    destruct (load_ndilib_failure_run w s _ _ Hl eq_refl) as (Hr & Hs & Ho & _).
    split; [exact Hr|]. rewrite Hs. split; [rewrite Ho; reflexivity|].
    eexists. split; [reflexivity|]. split; reflexivity.
  - exfalso. exact (Himg r eq_refl).
Qed.

(** The bundled file is not a library; the one in /usr/local/lib would load. *)
Lemma load_ndilib_no_fallback_witness :
  image (mac_world_images [(bundled_dylib, Unloadable "not a mach-o file");
                           (usr_local_dylib, EntryPoint (Some ndi_6_2_1))])
        usr_local_dylib = EntryPoint (Some ndi_6_2_1)
  /\ fst (load_ndilib
            (mac_world_images [(bundled_dylib, Unloadable "not a mach-o file");
                               (usr_local_dylib, EntryPoint (Some ndi_6_2_1))])
            initial_state) = None
  /\ opened (events_since initial_state
               (snd (load_ndilib
                       (mac_world_images [(bundled_dylib, Unloadable "not a mach-o file");
                                          (usr_local_dylib, EntryPoint (Some ndi_6_2_1))])
                       initial_state))) = [bundled_dylib].
Proof.
  split; [reflexivity|].
  assert (Hi : forall r,
             image (mac_world_images [(bundled_dylib, Unloadable "not a mach-o file");
                                      (usr_local_dylib, EntryPoint (Some ndi_6_2_1))])
                   (selected
                      (mac_world_images [(bundled_dylib, Unloadable "not a mach-o file");
                                         (usr_local_dylib, EntryPoint (Some ndi_6_2_1))]))
             <> EntryPoint r) by (intros r; discriminate).
  destruct (load_ndilib_no_fallback
              (mac_world_images [(bundled_dylib, Unloadable "not a mach-o file");
                                 (usr_local_dylib, EntryPoint (Some ndi_6_2_1))])
              initial_state eq_refl Hi) as (Hr & Ho & _).
  split; [exact Hr | exact Ho].
Defined.

(** C2, on the code: when the selected file opens as a library that lacks
    NDIlib_v6_load, [load_ndilib] logs ERR-405 (and ERR-404) and returns the
    null pointer, but it does not delete the [QLibrary] it has just created:
    [loaded_lib] still points to it and it is still on the heap. *)
Theorem load_ndilib_entry_point_missing (w : World) (s : State) :
  QString.isEmpty (selected w) = false ->
  image w (selected w) = NoEntryPoint ->
  let lib := {| address := next_address s; fileName := selected w |} in
  fst (load_ndilib w s) = None
  /\ errors (events_since s (snd (load_ndilib w s))) = ["ERR-405"; "ERR-404"]
  /\ deleted (events_since s (snd (load_ndilib w s))) = []
  /\ loaded_lib (snd (load_ndilib w s)) = Some lib
  /\ In lib (live (snd (load_ndilib w s))).
Proof.
  intros Hne Hi lib.
  pose proof (load_from_no_entry w (selected w) (snd (locate w s)) Hne Hi) as Hl.
  cbv zeta in Hl.
  destruct (load_ndilib_failure_run w s _ _ Hl eq_refl) as (Hr & Hs & _ & Hd & He).
  destruct (locate_run w s) as (_ & (_ & _ & Hnext & _) & _).
  split; [exact Hr|]. rewrite Hs.
  split; [rewrite He; reflexivity|]. split; [rewrite Hd; reflexivity|].
  cbn [loaded_lib live]. rewrite Hnext. split; [reflexivity | left; reflexivity].
Qed.

Lemma load_ndilib_entry_point_missing_witness :
  loaded_lib (snd (load_ndilib (mac_world usr_local_dylib NoEntryPoint) initial_state))
  = Some {| address := 1; fileName := usr_local_dylib |}
  /\ deleted (events_since initial_state
                (snd (load_ndilib (mac_world usr_local_dylib NoEntryPoint) initial_state)))
     = [].
Proof.
  destruct (load_ndilib_entry_point_missing
              (mac_world usr_local_dylib NoEntryPoint) initial_state eq_refl eq_refl)
    as (_ & _ & Hd & Hl & _).
  split; [exact Hl | exact Hd].
Defined.

(** ** Module load and unload *)

(** After its call of [load_ndilib], [obs_module_load] stores the result in
    [ndiLib] and touches neither [loaded_lib] nor the heap. *)
Lemma obs_module_load_globals (w : World) (s : State) :
  let s0 := snd (emit (EvLog LOG_DEBUG "+obs_module_load()") s) in
  let loaded := load_from w (selected w) (snd (locate w s0)) in
  loaded_lib (snd (obs_module_load w s)) = loaded_lib (snd loaded)
  /\ ndiLib (snd (obs_module_load w s)) = fst loaded
  /\ next_address (snd (obs_module_load w s)) = next_address (snd loaded)
  /\ live (snd (obs_module_load w s)) = live (snd loaded)
  /\ isLoaded (snd (obs_module_load w s)) = isLoaded (snd loaded).
Proof.
  cbv zeta. cbn [emit snd].
  remember (obs_module_load w s) as res eqn:Hres.
  unfold obs_module_load in Hres. unfold bind at 1 2 in Hres.
  cbn [obs_log emit] in Hres. rewrite load_ndilib_eq in Hres.
  match type of Hres with
  | context [load_from w (selected w) ?x] =>
      destruct (load_from w (selected w) x) as [r s2]
  end.
  subst res. cbn [fst snd].
  destruct r as [ndi|].
  - destruct (initialize ndi);
      [destruct (is_version_supported
                   (QRegularExpression.version_captured (version ndi))
                   PLUGIN_MIN_NDI_VERSION)|];
      cbn; repeat split.
  - unfold prompt_install. destruct (clicks_install w); cbn; repeat split.
Qed.

(** The four ways a load attempt can leave the globals and the heap. *)
Lemma obs_module_load_cases (w : World) (s : State) :
  let s' := snd (obs_module_load w s) in
  let lib := {| address := next_address s; fileName := selected w |} in
  (QString.isEmpty (selected w) = true
   /\ loaded_lib s' = loaded_lib s /\ ndiLib s' = None
   /\ live s' = live s /\ isLoaded s' = isLoaded s)
  \/ (QString.isEmpty (selected w) = false
      /\ (exists e, image w (selected w) = Unloadable e)
      /\ loaded_lib s' = None /\ ndiLib s' = None
      /\ live s' = filter (fun l => negb (QLibrary_eqb l lib)) (live s)
      /\ isLoaded s' = filter (fun l => negb (QLibrary_eqb l lib)) (isLoaded s))
  \/ (QString.isEmpty (selected w) = false
      /\ image w (selected w) = NoEntryPoint
      /\ loaded_lib s' = Some lib /\ ndiLib s' = None
      /\ live s' = lib :: live s /\ isLoaded s' = lib :: isLoaded s)
  \/ (QString.isEmpty (selected w) = false
      /\ image w (selected w) = EntryPoint (ndiLib s')
      /\ loaded_lib s' = Some lib
      /\ live s' = lib :: live s /\ isLoaded s' = lib :: isLoaded s).
Proof.
  intros s' lib. subst s'.
  destruct (obs_module_load_globals w s) as (Hl & Hn & _ & Hv & Hi).
  cbv zeta in Hl, Hn, Hv, Hi. rewrite Hl, Hn, Hv, Hi. clear Hl Hn Hv Hi.
  set (s0 := snd (emit (EvLog LOG_DEBUG "+obs_module_load()") s)).
  destruct (locate_run w s0) as (_ & (Hll & Hnl & Hna & Hlv & Hil) & _).
  cbn [s0 emit snd loaded_lib ndiLib next_address live isLoaded] in Hll, Hnl, Hna, Hlv, Hil.
  destruct (QString.isEmpty (selected w)) eqn:Hne.
  - left. rewrite (load_from_nothing w _ _ Hne). cbn. auto.
  - right. destruct (image w (selected w)) as [e| |r] eqn:Himg.
    + left. rewrite (load_from_unloadable w _ e _ Hne Himg). cbn -[QLibrary_eqb].
      rewrite Hna, Hlv, Hil. fold lib.
      split; [reflexivity|]. split; [now exists e|]. repeat split.
    + right; left. rewrite (load_from_no_entry w _ _ Hne Himg). cbn.
      rewrite Hna, Hlv, Hil. fold lib. repeat split.
    + right; right. rewrite (load_from_entry w _ r _ Hne Himg). cbn.
      rewrite Hna, Hlv, Hil. fold lib. repeat split.
Qed.

(** [obs_module_unload], as one step. *)
Lemma obs_module_unload_eq (s : State) :
  obs_module_unload s =
  (tt,
   {| loaded_lib := loaded_lib s; ndiLib := None;
      next_address := next_address s;
      live := match loaded_lib s with
              | Some l => filter (fun x => negb (QLibrary_eqb x l)) (live s)
              | None => live s
              end;
      isLoaded := match loaded_lib s with
                  | Some l => filter (fun x => negb (QLibrary_eqb x l)) (isLoaded s)
                  | None => isLoaded s
                  end;
      trace := trace s
               ++ [EvLog LOG_DEBUG "+obs_module_unload()"]
               ++ match ndiLib s with Some n => [EvDestroy n] | None => [] end
               ++ match loaded_lib s with Some l => [EvDelete l] | None => [] end
               ++ [EvLog LOG_DEBUG "-obs_module_unload(): goodbye!"] |}).
Proof.
  unfold obs_module_unload, bind, obs_log, get_ndiLib, get_loaded_lib.
  cbn -[QLibrary_eqb].
  destruct (ndiLib s) as [n|], (loaded_lib s) as [l|];
    unfold emit; cbn -[QLibrary_eqb]; rewrite <- !app_assoc; reflexivity.
Qed.

(** A load attempt whose entry function returns an interface pointer: the
    three ways [obs_module_load] can end, with the whole trace. *)
Lemma obs_module_load_entry (w : World) (s : State) (ndi : NDIlib_v6) :
  QString.isEmpty (selected w) = false ->
  image w (selected w) = EntryPoint (Some ndi) ->
  exists ev,
    forallb is_lookup ev = true
    /\ let lib := {| address := next_address s; fileName := selected w |} in
       let opening :=
         [EvLog LOG_DEBUG "+obs_module_load()"] ++ ev ++
         [EvLog LOG_DEBUG "load_ndilib: Found '%s'; attempting to load NDI library...";
          EvNew lib; EvLoad lib true;
          EvLog LOG_DEBUG "load_ndilib: NDI library loaded successfully";
          EvResolve lib true;
          EvLog LOG_DEBUG "load_ndilib: NDIlib_v6_load found";
          EvEntry lib; EvInitialize ndi] in
       let checking :=
         [EvVersion ndi;
          EvLog LOG_INFO "obs_module_load: NDI library detected ('%s')";
          EvVersion ndi;
          EvLog LOG_INFO "NDI Version detected: %s"] in
       let final := fun t =>
         {| loaded_lib := Some lib; ndiLib := Some ndi;
            next_address := S (next_address s);
            live := lib :: live s; isLoaded := lib :: isLoaded s;
            trace := trace s ++ t |} in
       obs_module_load w s =
       if negb (initialize ndi) then
         (false, final (opening ++
            [EvLog LOG_ERROR "ERR-406 - NDI library could not initialize due to unsupported CPU."]))
       else if negb (is_version_supported
                       (QRegularExpression.version_captured (version ndi))
                       PLUGIN_MIN_NDI_VERSION) then
         (false, final (opening ++ checking ++
            [EvLog LOG_ERROR "ERR-425 - %s requires at least NDI version %s. NDI Version detected: %s. Plugin will unload."]))
       else
         (true, final (opening ++ checking ++
            [EvLog LOG_INFO "obs_module_load: NDI library initialized successfully";
             EvRegisterSource "ndi_source_info";
             EvRegisterOutput "ndi_output_info";
             EvRegisterSource "alpha_filter_info";
             EvLog LOG_INFO "obs_module_load: DistroAV plugin loaded successfully";
             EvLog LOG_DEBUG "-obs_module_load()"])).
Proof.
  intros Hne Himg.
  unfold obs_module_load. unfold bind at 1 2. cbn [obs_log emit].
  rewrite load_ndilib_eq.
  match goal with
  | |- context [locate w ?x] => set (s0 := x)
  end.
  destruct (locate_run w s0) as (_ & (Hll & Hnl & Hna & Hlv & Hil) & ev & Ht & Hq).
  cbn [s0 loaded_lib ndiLib next_address live isLoaded trace] in Hll, Hnl, Hna, Hlv, Hil, Ht.
  exists ev. split; [exact Hq|]. cbv zeta.
  rewrite (load_from_entry w _ (Some ndi) _ Hne Himg). cbv zeta.
  rewrite Hna, Hlv, Hil, Ht.
  destruct (initialize ndi);
    [destruct (is_version_supported
                 (QRegularExpression.version_captured (version ndi))
                 PLUGIN_MIN_NDI_VERSION)|];
    cbn -[app]; rewrite <- !app_assoc; cbn [app]; reflexivity.
Qed.

Ltac trace_calc Hq :=
  let Ho := fresh in let Hd := fresh in let Hy := fresh in
  let Hg := fresh in let He := fresh in
  destruct (lookups_are_quiet _ Hq) as (Ho & Hd & Hy & Hg & He);
  rewrite ?errors_app, ?registered_app, ?deleted_app, ?opened_app, ?destroyed_app,
    ?Ho, ?Hd, ?Hy, ?Hg, ?He;
  reflexivity.

Lemma is_version_supported_first_less (candidate required : string) (i : nat) :
  (i < Nat.max (List.length (QString.split "." candidate))
               (List.length (QString.split "." required)))%nat ->
  (forall j, (j < i)%nat ->
     part_at (QString.split "." candidate) j = part_at (QString.split "." required) j) ->
  part_at (QString.split "." candidate) i < part_at (QString.split "." required) i ->
  is_version_supported candidate required = false.
Proof.
  intros Hi Heq Hlt. unfold is_version_supported.
  rewrite (version_loop_first_diff _ _ _ 0 i Hi); simpl; [|exact Heq|lia].
  destruct (Z.gtb_spec (part_at (QString.split "." candidate) i)
                       (part_at (QString.split "." required) i)); [lia | reflexivity].
Qed.

(** C7, as the code has it: when the interface pointer was obtained and its
    [initialize()] fails, [obs_module_load] logs ERR-406 and returns false
    without registering anything; it deletes nothing: [loaded_lib] and
    [ndiLib] keep pointing to the library, which stays on the heap. *)
Theorem obs_module_load_initialization_failed (w : World) (s : State) (ndi : NDIlib_v6) :
  QString.isEmpty (selected w) = false ->
  image w (selected w) = EntryPoint (Some ndi) ->
  initialize ndi = false ->
  let lib := {| address := next_address s; fileName := selected w |} in
  fst (obs_module_load w s) = false
  /\ errors (events_since s (snd (obs_module_load w s))) = ["ERR-406"]
  /\ registered (events_since s (snd (obs_module_load w s))) = []
  /\ deleted (events_since s (snd (obs_module_load w s))) = []
  /\ loaded_lib (snd (obs_module_load w s)) = Some lib
  /\ In lib (live (snd (obs_module_load w s)))
  /\ ndiLib (snd (obs_module_load w s)) = Some ndi.
Proof.
  intros Hne Himg Hinit lib.
  destruct (obs_module_load_entry w s ndi Hne Himg) as (ev & Hq & Heq).
  cbv zeta in Heq. rewrite Hinit in Heq. cbn [negb] in Heq. rewrite Heq.
  cbn [fst snd loaded_lib live ndiLib].
  erewrite events_since_app by (cbn [trace]; reflexivity).
  split; [reflexivity|]. split; [trace_calc Hq|]. split; [trace_calc Hq|].
  split; [trace_calc Hq|]. split; [reflexivity|]. split; [left|]; reflexivity.
Qed.

Lemma obs_module_load_initialization_failed_witness :
  fst (obs_module_load (mac_world usr_local_dylib (EntryPoint (Some ndi_old_cpu)))
                       initial_state) = false
  /\ errors (events_since initial_state
               (snd (obs_module_load
                       (mac_world usr_local_dylib (EntryPoint (Some ndi_old_cpu)))
                       initial_state))) = ["ERR-406"].
Proof.
  destruct (obs_module_load_initialization_failed
              (mac_world usr_local_dylib (EntryPoint (Some ndi_old_cpu)))
              initial_state ndi_old_cpu eq_refl eq_refl eq_refl) as (Hr & He & _).
  split; [exact Hr | exact He].
Defined.

(** C7 as the specification words it fails: the library's [initialize()]
    reports failure, module load returns false, and the library handle is
    not released: it is still held and alive, and nothing was deleted. *)
Lemma obs_module_load_initialization_failed_keeps_handle :
  initialize ndi_old_cpu = false
  /\ fst (obs_module_load (mac_world usr_local_dylib (EntryPoint (Some ndi_old_cpu)))
                          initial_state) = false
  /\ loaded_lib (snd (obs_module_load
                        (mac_world usr_local_dylib (EntryPoint (Some ndi_old_cpu)))
                        initial_state))
     = Some {| address := 1; fileName := usr_local_dylib |}
  /\ live (snd (obs_module_load
                  (mac_world usr_local_dylib (EntryPoint (Some ndi_old_cpu)))
                  initial_state))
     = [{| address := 1; fileName := usr_local_dylib |}]
  /\ deleted (trace (snd (obs_module_load
                            (mac_world usr_local_dylib (EntryPoint (Some ndi_old_cpu)))
                            initial_state))) = [].
Proof. repeat split. Qed.

(** C8, as the code has it: when the version the library reports, cut down
    by the pattern, is below 6.0.0 in the first field where the two differ,
    [obs_module_load] logs ERR-425 and returns false without registering
    anything; it deletes nothing: [loaded_lib] and [ndiLib] keep pointing to
    the library, which stays on the heap. *)
Theorem obs_module_load_version_unsupported
        (w : World) (s : State) (ndi : NDIlib_v6) (i : nat) :
  QString.isEmpty (selected w) = false ->
  image w (selected w) = EntryPoint (Some ndi) ->
  initialize ndi = true ->
  let reported := QString.split "." (QRegularExpression.version_captured (version ndi)) in
  let required := QString.split "." PLUGIN_MIN_NDI_VERSION in
  (i < Nat.max (List.length reported) (List.length required))%nat ->
  (forall j, (j < i)%nat -> part_at reported j = part_at required j) ->
  part_at reported i < part_at required i ->
  let lib := {| address := next_address s; fileName := selected w |} in
  fst (obs_module_load w s) = false
  /\ errors (events_since s (snd (obs_module_load w s))) = ["ERR-425"]
  /\ registered (events_since s (snd (obs_module_load w s))) = []
  /\ deleted (events_since s (snd (obs_module_load w s))) = []
  /\ loaded_lib (snd (obs_module_load w s)) = Some lib
  /\ In lib (live (snd (obs_module_load w s)))
  /\ ndiLib (snd (obs_module_load w s)) = Some ndi.
Proof.
  intros Hne Himg Hinit reported required Hi Heq Hlt lib.
  pose proof (is_version_supported_first_less _ _ i Hi Heq Hlt) as Hv.
  destruct (obs_module_load_entry w s ndi Hne Himg) as (ev & Hq & Hload).
  cbv zeta in Hload. rewrite Hinit, Hv in Hload. cbn [negb] in Hload.
  rewrite Hload. cbn [fst snd loaded_lib live ndiLib].
  erewrite events_since_app by (cbn [trace]; reflexivity).
  split; [reflexivity|]. split; [trace_calc Hq|]. split; [trace_calc Hq|].
  split; [trace_calc Hq|]. split; [reflexivity|]. split; [left|]; reflexivity.
Qed.

Lemma obs_module_load_version_unsupported_witness :
  fst (obs_module_load (mac_world usr_local_dylib (EntryPoint (Some ndi_5_6_1)))
                       initial_state) = false
  /\ registered (events_since initial_state
                   (snd (obs_module_load
                           (mac_world usr_local_dylib (EntryPoint (Some ndi_5_6_1)))
                           initial_state))) = [].
Proof.
  assert (Hlt : part_at (QString.split "."
                           (QRegularExpression.version_captured (version ndi_5_6_1))) 0
                < part_at (QString.split "." PLUGIN_MIN_NDI_VERSION) 0)
    by reflexivity.
  assert (Hi : (0 < Nat.max
                      (List.length (QString.split "."
                         (QRegularExpression.version_captured (version ndi_5_6_1))))
                      (List.length (QString.split "." PLUGIN_MIN_NDI_VERSION)))%nat)
    by (vm_compute; lia).
  destruct (obs_module_load_version_unsupported
              (mac_world usr_local_dylib (EntryPoint (Some ndi_5_6_1)))
              initial_state ndi_5_6_1 0 eq_refl eq_refl eq_refl Hi
              (fun j Hj => match Nat.nlt_0_r j Hj with end) Hlt)
    as (Hr & _ & Hreg & _).
  split; [exact Hr | exact Hreg].
Defined.

(** C8 as the specification words it fails: a library reporting 5.6.1.0 is
    refused (module load returns false, nothing is registered), and the
    library handle is not released: it is still held and alive, and nothing
    was deleted. *)
Lemma obs_module_load_version_unsupported_keeps_handle :
  is_version_supported (QRegularExpression.version_captured (version ndi_5_6_1))
                       PLUGIN_MIN_NDI_VERSION = false
  /\ fst (obs_module_load (mac_world usr_local_dylib (EntryPoint (Some ndi_5_6_1)))
                          initial_state) = false
  /\ loaded_lib (snd (obs_module_load
                        (mac_world usr_local_dylib (EntryPoint (Some ndi_5_6_1)))
                        initial_state))
     = Some {| address := 1; fileName := usr_local_dylib |}
  /\ live (snd (obs_module_load
                  (mac_world usr_local_dylib (EntryPoint (Some ndi_5_6_1)))
                  initial_state))
     = [{| address := 1; fileName := usr_local_dylib |}]
  /\ deleted (trace (snd (obs_module_load
                            (mac_world usr_local_dylib (EntryPoint (Some ndi_5_6_1)))
                            initial_state))) = [].
Proof. repeat split. Qed.

(** ** Teardown *)

(** C3, on the code: a second [obs_module_unload] calls no second
    [destroy()], since the first has nulled [ndiLib]; but the first leaves
    [loaded_lib] as it was after deleting the object, so the second deletes
    the same object again. *)
Theorem obs_module_unload_twice (s : State) (lib : QLibrary) :
  loaded_lib s = Some lib ->
  let s1 := snd (obs_module_unload s) in
  let s2 := snd (obs_module_unload s1) in
  destroyed (events_since s1 s2) = []
  /\ deleted (events_since s s1) = [lib]
  /\ loaded_lib s1 = Some lib
  /\ ~ In lib (live s1)
  /\ deleted (events_since s1 s2) = [lib].
Proof.
  intros Hheld s1 s2. subst s2 s1.
  rewrite (obs_module_unload_eq (snd (obs_module_unload s))).
  rewrite (obs_module_unload_eq s).
  cbn [snd loaded_lib ndiLib live]. rewrite Hheld.
  erewrite !events_since_app by (cbn [trace]; reflexivity).
  split; [reflexivity|]. split; [destruct (ndiLib s); reflexivity|].
  split; [reflexivity|]. split; [|reflexivity].
  intros Hin. apply filter_In in Hin as [_ Hneg].
  rewrite QLibrary_eqb_refl in Hneg. discriminate Hneg.
Qed.

(** The plugin has loaded; the host unloads it twice. *)
Lemma obs_module_unload_twice_witness :
  deleted (events_since
             (snd (obs_module_unload (snd (obs_module_load working_mac initial_state))))
             (snd (obs_module_unload
                     (snd (obs_module_unload
                             (snd (obs_module_load working_mac initial_state)))))))
  = [{| address := 1; fileName := usr_local_dylib |}].
Proof.
  destruct (obs_module_unload_twice
              (snd (obs_module_load working_mac initial_state))
              {| address := 1; fileName := usr_local_dylib |} eq_refl)
    as (_ & _ & _ & _ & H).
  exact H.
Defined.

(** ** Runs of load and unload *)

Lemma run_snoc (ops : list Op) (o : Op) (s : State) :
  run (ops ++ [o]) s = step o (run ops s).
Proof. unfold run. now rewrite fold_left_app. Qed.

Lemma step_interface_alive (o : Op) (s : State) (ndi : NDIlib_v6) :
  ndiLib (step o s) = Some ndi ->
  exists lib, loaded_lib (step o s) = Some lib
              /\ In lib (live (step o s)) /\ In lib (isLoaded (step o s)).
Proof.
  destruct o as [w|]; cbn [step].
  - destruct (obs_module_load_cases w s)
      as [(_ & _ & Hn & _)|[(_ & _ & _ & Hn & _)|[(_ & _ & _ & Hn & _)
          |(_ & _ & Hl & Hv & Hi)]]];
      cbv zeta in *; intros H; try congruence.
    eexists. split; [exact Hl|]. rewrite Hv, Hi. split; left; reflexivity.
  - rewrite obs_module_unload_eq. cbn. discriminate.
Qed.

Lemma unload_releases (s : State) :
  owned s -> live (step OpUnload s) = [].
Proof.
  intros Ho. cbn [step]. rewrite obs_module_unload_eq. cbn [snd live].
  destruct Ho as [Hnil|(lib & Hone & Hheld)].
  - rewrite Hnil. destruct (loaded_lib s); reflexivity.
  - rewrite Hheld, Hone. cbn [filter]. now rewrite QLibrary_eqb_refl.
Qed.

Lemma load_owned (w : World) (s : State) :
  live s = [] -> owned (step (OpLoad w) s).
Proof.
  intros Hnil. cbn [step]. unfold owned.
  destruct (obs_module_load_cases w s)
    as [(_ & _ & _ & Hv & _)|[(_ & _ & _ & _ & Hv & _)|[(_ & _ & Hl & _ & Hv & _)
        |(_ & _ & Hl & Hv & _)]]];
    cbv zeta in *; rewrite Hv, Hnil.
  - now left.
  - now left.
  - right. eexists. split; [reflexivity | exact Hl].
  - right. eexists. split; [reflexivity | exact Hl].
Qed.

Lemma run_owned (ops : list Op) :
  forall s,
    owned s ->
    match ops with OpLoad _ :: _ => live s = [] | _ => True end ->
    serialized ops = true ->
    owned (run ops s).
Proof.
  induction ops as [|o rest IH]; intros s Ho Hfirst Hser; [exact Ho|].
  change (run (o :: rest) s) with (run rest (step o s)).
  destruct o as [w|].
  - pose proof (load_owned w s Hfirst) as Ho1.
    destruct rest as [|[w'|] rest'].
    + exact Ho1.
    + discriminate Hser.
    + apply IH; [exact Ho1 | exact I | exact Hser].
  - pose proof (unload_releases s Ho) as Hnil.
    apply IH; [now left | destruct rest as [|[w'|] rest']; auto | exact Hser].
Qed.

Lemma serialized_prefix (a b : list Op) :
  serialized (a ++ b) = true -> serialized a = true.
Proof.
  induction a as [|o a IH]; [reflexivity|].
  intros H. destruct o as [w|]; destruct a as [|[w'|] a'];
    try reflexivity; try discriminate H; apply IH; exact H.
Qed.

(** C4 as the specification words it fails twice: after a load and an
    unload [loaded_lib] is not null (it points to the deleted object, the
    heap being empty); and two loads in a row leave two library objects
    alive. *)
Lemma lifecycle_invariant_broken :
  loaded_lib (run [OpLoad working_mac; OpUnload] initial_state)
  = Some {| address := 1; fileName := usr_local_dylib |}
  /\ live (run [OpLoad working_mac; OpUnload] initial_state) = []
  /\ live (run [OpLoad working_mac; OpLoad working_mac] initial_state)
     = [{| address := 2; fileName := usr_local_dylib |};
        {| address := 1; fileName := usr_local_dylib |}].
Proof. repeat split. Qed.

(** ** A run that reaches the active state *)

(** NDI 6.2.1 against the minimum 6.0.0: module load succeeds and hands the
    three capability objects to the host, in this order. *)
Example obs_module_load_active :
  fst (obs_module_load working_mac initial_state) = true
  /\ registered (trace (snd (obs_module_load working_mac initial_state)))
     = ["ndi_source_info"; "ndi_output_info"; "alpha_filter_info"]
  /\ errors (trace (snd (obs_module_load working_mac initial_state))) = [].
Proof. repeat split. Qed.

(** No library anywhere: module load is declined after the prompt, and
    nothing is registered or opened. *)
Example obs_module_load_not_found :
  fst (obs_module_load (mac_world_images []) initial_state) = false
  /\ errors (trace (snd (obs_module_load (mac_world_images []) initial_state)))
     = ["ERR-404"; "ERR-401"]
  /\ registered (trace (snd (obs_module_load (mac_world_images []) initial_state))) = []
  /\ opened (trace (snd (obs_module_load (mac_world_images []) initial_state))) = [].
Proof. repeat split. Qed.

(** * Further properties of the code *)

(** ** The version order *)

Section VersionOrder.

Variables x y z : list string.

(** More turns of the loop change nothing once both lists have run out. *)
Lemma version_loop_more (n m : nat) :
  forall i,
    (forall k, (n <= k)%nat -> part_at x (i + k) = part_at y (i + k)) ->
    version_loop x y (n + m) i = version_loop x y n i.
Proof.
  induction n as [|n IH]; intros i Heq.
  - simpl. apply version_loop_equal. intros j _. apply Heq. lia.
  - simpl.
    destruct (part_at x i >? part_at y i); [reflexivity|].
    destruct (part_at x i <? part_at y i); [reflexivity|].
    apply IH. intros k Hk.
    replace (S i + k)%nat with (i + S k)%nat by lia. apply Heq. lia.
Qed.

Lemma version_loop_total (n : nat) :
  forall i, version_loop x y n i = true \/ version_loop y x n i = true.
Proof.
  induction n as [|n IH]; intros i; [now left|]. simpl.
  destruct (Z.gtb_spec (part_at x i) (part_at y i)); [now left|].
  destruct (Z.ltb_spec (part_at x i) (part_at y i)).
  - right. destruct (Z.gtb_spec (part_at y i) (part_at x i)); [reflexivity | lia].
  - destruct (Z.gtb_spec (part_at y i) (part_at x i)); [lia|].
    destruct (Z.ltb_spec (part_at y i) (part_at x i)); [lia|]. apply IH.
Qed.

Lemma version_loop_antisym (n : nat) :
  forall i,
    version_loop x y n i = true -> version_loop y x n i = true ->
    forall k, (k < n)%nat -> part_at x (i + k) = part_at y (i + k).
Proof.
  induction n as [|n IH]; intros i Hxy Hyx k Hk; [lia|].
  simpl in Hxy, Hyx.
  destruct (Z.gtb_spec (part_at x i) (part_at y i)) as [Hgt|Hle].
  - destruct (Z.gtb_spec (part_at y i) (part_at x i)); [lia|].
    destruct (Z.ltb_spec (part_at y i) (part_at x i)); [discriminate | lia].
  - destruct (Z.ltb_spec (part_at x i) (part_at y i)); [discriminate|].
    destruct (Z.gtb_spec (part_at y i) (part_at x i)); [lia|].
    destruct (Z.ltb_spec (part_at y i) (part_at x i)); [lia|].
    destruct k as [|k]; [rewrite Nat.add_0_r; lia|].
    replace (i + S k)%nat with (S i + k)%nat by lia.
    apply IH; [assumption | assumption | lia].
Qed.

Lemma version_loop_trans (n : nat) :
  forall i,
    version_loop x y n i = true -> version_loop y z n i = true ->
    version_loop x z n i = true.
Proof.
  induction n as [|n IH]; intros i Hxy Hyz; [reflexivity|].
  simpl in *.
  destruct (Z.gtb_spec (part_at x i) (part_at y i));
    destruct (Z.ltb_spec (part_at x i) (part_at y i)); try discriminate; try lia;
    destruct (Z.gtb_spec (part_at y i) (part_at z i));
    destruct (Z.ltb_spec (part_at y i) (part_at z i)); try discriminate; try lia;
    destruct (Z.gtb_spec (part_at x i) (part_at z i)); try reflexivity; try lia;
    destruct (Z.ltb_spec (part_at x i) (part_at z i)); try lia.
  apply IH; assumption.
Qed.

(** Field by field at least as large is enough. *)
Lemma version_loop_pointwise (n : nat) :
  forall i,
    (forall k, (k < n)%nat -> part_at y (i + k) <= part_at x (i + k)) ->
    version_loop x y n i = true.
Proof.
  induction n as [|n IH]; intros i Hge; [reflexivity|]. simpl.
  pose proof (Hge 0%nat ltac:(lia)) as H0. rewrite Nat.add_0_r in H0.
  destruct (Z.gtb_spec (part_at x i) (part_at y i)); [reflexivity|].
  destruct (Z.ltb_spec (part_at x i) (part_at y i)); [lia|].
  apply IH. intros k Hk.
  replace (S i + k)%nat with (i + S k)%nat by lia. apply Hge. lia.
Qed.

End VersionOrder.

(** The loop reads the two lists through [part_at] only. *)
Lemma version_loop_ext (x x' y y' : list string) (n : nat) :
  (forall i, part_at x i = part_at x' i) ->
  (forall i, part_at y i = part_at y' i) ->
  forall i, version_loop x y n i = version_loop x' y' n i.
Proof.
  intros Hx Hy. induction n as [|n IH]; intros i; [reflexivity|].
  simpl. rewrite Hx, Hy, IH. reflexivity.
Qed.

(** [is_version_supported] with any number of turns that covers both lists. *)
Lemma is_version_supported_turns (a b : string) (turns : nat) :
  (List.length (QString.split "." a) <= turns)%nat ->
  (List.length (QString.split "." b) <= turns)%nat ->
  is_version_supported a b =
  version_loop (QString.split "." a) (QString.split "." b) turns 0.
Proof.
  intros Ha Hb. unfold is_version_supported.
  set (pa := QString.split "." a) in *. set (pb := QString.split "." b) in *.
  set (N := Nat.max (List.length pa) (List.length pb)).
  replace turns with (N + (turns - N))%nat by lia.
  symmetry. apply version_loop_more. intros k Hk. cbn [Nat.add].
  rewrite !part_at_missing by lia. reflexivity.
Qed.

(** Any two versions compare one way or the other. *)
Theorem is_version_supported_total (a b : string) :
  is_version_supported a b = true \/ is_version_supported b a = true.
Proof.
  set (turns := Nat.max (List.length (QString.split "." a))
                        (List.length (QString.split "." b))).
  rewrite (is_version_supported_turns a b turns),
          (is_version_supported_turns b a turns) by lia.
  apply version_loop_total.
Qed.

(** Support is transitive. *)
Theorem is_version_supported_trans (a b c : string) :
  is_version_supported a b = true -> is_version_supported b c = true ->
  is_version_supported a c = true.
Proof.
  set (turns := Nat.max (List.length (QString.split "." a))
                  (Nat.max (List.length (QString.split "." b))
                           (List.length (QString.split "." c)))).
  rewrite (is_version_supported_turns a b turns),
          (is_version_supported_turns b c turns),
          (is_version_supported_turns a c turns) by lia.
  apply version_loop_trans.
Qed.

Lemma is_version_supported_trans_witness :
  is_version_supported "7.1" "6.0.0" = true.
Proof.
  apply (is_version_supported_trans "7.1" "6.5.2" "6.0.0"); reflexivity.
Defined.

(** Two versions support each other exactly when all their fields agree. *)
Theorem is_version_supported_antisym (a b : string) :
  (is_version_supported a b = true /\ is_version_supported b a = true)
  <-> forall i, part_at (QString.split "." a) i = part_at (QString.split "." b) i.
Proof.
  set (turns := Nat.max (List.length (QString.split "." a))
                        (List.length (QString.split "." b))).
  rewrite (is_version_supported_turns a b turns),
          (is_version_supported_turns b a turns) by lia.
  set (pa := QString.split "." a) in *. set (pb := QString.split "." b) in *.
  split.
  - intros [Hab Hba] i.
    destruct (Nat.lt_ge_cases i turns) as [Hi|Hi].
    + apply (version_loop_antisym pa pb turns 0 Hab Hba i Hi).
    + rewrite !part_at_missing by lia. reflexivity.
  - intros Heq. split; apply version_loop_equal; intros j _; simpl; now rewrite Heq.
Qed.

(** ** Fields and trailing zeros *)

Lemma split_not_nil (sep : ascii) (s : string) : QString.split sep s <> [].
Proof.
  destruct s as [|c s]; simpl; [discriminate|].
  destruct (Ascii.eqb c sep); [discriminate|].
  destruct (QString.split sep s); discriminate.
Qed.

Lemma split_app_sep (sep : ascii) (a b : string) :
  QString.split sep (a ++ String sep b)%string
  = QString.split sep a ++ QString.split sep b.
Proof.
  induction a as [|c a IH]; simpl.
  - now rewrite Ascii.eqb_refl.
  - destruct (Ascii.eqb c sep); [now rewrite IH|].
    rewrite IH. pose proof (split_not_nil sep a) as Hne.
    destruct (QString.split sep a) as [|p ps]; [contradiction | reflexivity].
Qed.

Lemma part_at_app_zero (parts : list string) (i : nat) :
  part_at (parts ++ ["0"]) i = part_at parts i.
Proof.
  destruct (Nat.lt_trichotomy i (List.length parts)) as [Hlt|[Heq|Hgt]].
  - rewrite !part_at_present by (rewrite ?length_app; simpl; lia).
    now rewrite app_nth1.
  - rewrite part_at_present by (rewrite length_app; simpl; lia).
    rewrite part_at_missing by lia.
    rewrite app_nth2 by lia. subst i. now rewrite Nat.sub_diag.
  - rewrite !part_at_missing by (rewrite ?length_app; simpl; lia). reflexivity.
Qed.

(** A trailing ".0" on either side does not change the answer: 6.0 and
    6.0.0 are the same version to the comparison. *)
Theorem is_version_supported_trailing_zero (a b : string) :
  is_version_supported (a ++ ".0")%string b = is_version_supported a b
  /\ is_version_supported a (b ++ ".0")%string = is_version_supported a b.
Proof.
  set (turns := S (Nat.max (List.length (QString.split "." a))
                           (List.length (QString.split "." b)))).
  assert (Hsplit : forall v, QString.split "." (v ++ ".0")%string
                             = QString.split "." v ++ ["0"]).
  { intros v. change (v ++ ".0")%string with (v ++ String "." "0")%string.
    apply split_app_sep. }
  rewrite (is_version_supported_turns (a ++ ".0")%string b turns),
          (is_version_supported_turns a (b ++ ".0")%string turns),
          (is_version_supported_turns a b turns)
    by (rewrite ?Hsplit, ?length_app; simpl; lia).
  rewrite !Hsplit.
  split; apply version_loop_ext; intros i;
    rewrite ?part_at_app_zero; reflexivity.
Qed.

(** ** The minimum version *)

Lemma part_at_minimum (k : nat) :
  part_at (QString.split "." PLUGIN_MIN_NDI_VERSION) (1 + k) = 0.
Proof.
  do 2 (destruct k as [|k]; [reflexivity|]). reflexivity.
Qed.

(** Against the minimum 6.0.0, a version without negative fields is
    supported exactly when its first field is at least 6. *)
Theorem is_version_supported_minimum (v : string) :
  (forall i, 0 <= part_at (QString.split "." v) i) ->
  is_version_supported v PLUGIN_MIN_NDI_VERSION
  = (6 <=? part_at (QString.split "." v) 0).
Proof.
  intros Hpos.
  set (t := Nat.max (List.length (QString.split "." v)) 3).
  rewrite (is_version_supported_turns v PLUGIN_MIN_NDI_VERSION (S t))
    by (unfold t; simpl; lia).
  cbn [version_loop].
  change (part_at (QString.split "." PLUGIN_MIN_NDI_VERSION) 0) with 6.
  destruct (Z.gtb_spec (part_at (QString.split "." v) 0) 6).
  - symmetry. apply Z.leb_le. lia.
  - destruct (Z.ltb_spec (part_at (QString.split "." v) 0) 6).
    + symmetry. apply Z.leb_gt. lia.
    + rewrite version_loop_pointwise.
      * symmetry. apply Z.leb_le. lia.
      * intros k _. rewrite part_at_minimum. apply Hpos.
Qed.

Lemma is_version_supported_minimum_witness :
  is_version_supported "6.2.1" PLUGIN_MIN_NDI_VERSION = true.
Proof.
  rewrite (is_version_supported_minimum "6.2.1"); [reflexivity|].
  intros i. do 3 (destruct i as [|i]; [vm_compute; discriminate|]).
  vm_compute; discriminate.
Defined.

(** ** What the version pattern extracts *)

Lemma string_app_assoc (a b c : string) :
  ((a ++ b) ++ c = a ++ (b ++ c))%string.
Proof. induction a as [|x a IH]; simpl; [reflexivity | now rewrite IH]. Qed.

Lemma span_digits_spec (s : string) :
  forall d r, QRegularExpression.span_digits s = (d, r) ->
              s = (d ++ r)%string /\ only_digits d = true.
Proof.
  induction s as [|c s IH]; simpl; intros d r H.
  - inversion H; subst. now split.
  - destruct (QString.is_digit c) eqn:Hc.
    + destruct (QRegularExpression.span_digits s) as [d' r'].
      inversion H; subst. destruct (IH d' r eq_refl) as [-> Hd].
      split; [reflexivity|]. simpl. now rewrite Hc.
    + inversion H; subst. now split.
Qed.

Lemma is_number_intro (d : string) :
  only_digits d = true -> QString.isEmpty d = false -> is_number d = true.
Proof. intros H1 H2. unfold is_number. now rewrite H1, H2. Qed.

Lemma dot_digits_spec (s d r : string) :
  QRegularExpression.dot_digits s = Some (d, r) ->
  s = String "." (d ++ r)%string /\ is_number d = true.
Proof.
  unfold QRegularExpression.dot_digits. destruct s as [|c s]; [discriminate|].
  destruct (Ascii.eqb_spec c "."); [subst c | discriminate].
  destruct (QRegularExpression.span_digits s) as [d' r'] eqn:Hspan.
  destruct (QString.isEmpty d') eqn:He; [discriminate|].
  intros H. inversion H; subst.
  destruct (span_digits_spec s d r Hspan) as [-> Hd].
  split; [reflexivity | now apply is_number_intro].
Qed.

(** A match at the start of [s] is two to four numbers joined by dots and
    reaches the end of [s], a final line feed apart. *)
Lemma version_match_here_spec (s m : string) :
  QRegularExpression.version_match_here s = Some m ->
  exists parts rest,
    m = join_dots parts
    /\ Forall (fun p => is_number p = true) parts
    /\ (2 <= List.length parts <= 4)%nat
    /\ s = (m ++ rest)%string
    /\ QRegularExpression.at_dollar rest = true.
Proof.
  unfold QRegularExpression.version_match_here.
  destruct (QRegularExpression.span_digits s) as [d1 r1] eqn:H1.
  destruct (span_digits_spec s d1 r1 H1) as [Hs Hd1].
  destruct (QString.isEmpty d1) eqn:He1; [discriminate|].
  pose proof (is_number_intro d1 Hd1 He1) as Hn1.
  destruct (QRegularExpression.dot_digits r1) as [[d2 r2]|] eqn:H2; [|discriminate].
  destruct (dot_digits_spec r1 d2 r2 H2) as [Hr1 Hn2].
  assert (Htwo : s = ((d1 ++ "." ++ d2) ++ r2)%string).
  { rewrite Hs, Hr1, !string_app_assoc. reflexivity. }
  assert (Two : QRegularExpression.at_dollar r2 = true ->
                exists parts rest,
                  (d1 ++ "." ++ d2)%string = join_dots parts
                  /\ Forall (fun p => is_number p = true) parts
                  /\ (2 <= List.length parts <= 4)%nat
                  /\ s = ((d1 ++ "." ++ d2) ++ rest)%string
                  /\ QRegularExpression.at_dollar rest = true).
  { intros Hend. exists [d1; d2], r2. repeat split; auto; simpl; lia. }
  destruct (QRegularExpression.dot_digits r2) as [[d3 r3]|] eqn:H3.
  - destruct (dot_digits_spec r2 d3 r3 H3) as [Hr2 Hn3].
    assert (Hthree : s = (((d1 ++ "." ++ d2) ++ "." ++ d3) ++ r3)%string).
    { rewrite Htwo, Hr2, !string_app_assoc. reflexivity. }
    assert (Three : QRegularExpression.at_dollar r3 = true ->
                    exists parts rest,
                      ((d1 ++ "." ++ d2) ++ "." ++ d3)%string = join_dots parts
                      /\ Forall (fun p => is_number p = true) parts
                      /\ (2 <= List.length parts <= 4)%nat
                      /\ s = (((d1 ++ "." ++ d2) ++ "." ++ d3) ++ rest)%string
                      /\ QRegularExpression.at_dollar rest = true).
    { intros Hend. exists [d1; d2; d3], r3.
      repeat split; auto; try (simpl; lia).
      cbn [join_dots]. rewrite !string_app_assoc. reflexivity. }
    destruct (QRegularExpression.dot_digits r3) as [[d4 r4]|] eqn:H4.
    + destruct (dot_digits_spec r3 d4 r4 H4) as [Hr3 Hn4].
      destruct (QRegularExpression.at_dollar r4) eqn:E4.
      * intros H. inversion H; subst m. exists [d1; d2; d3; d4], r4.
        repeat split; auto; try (simpl; lia).
        -- cbn [join_dots]. rewrite !string_app_assoc. reflexivity.
        -- rewrite Hthree, Hr3, !string_app_assoc. reflexivity.
      * destruct (QRegularExpression.at_dollar r3) eqn:E3.
        -- intros H. inversion H; subst m. now apply Three.
        -- destruct (QRegularExpression.at_dollar r2) eqn:E2; [|discriminate].
           intros H. inversion H; subst m. now apply Two.
    + destruct (QRegularExpression.at_dollar r3) eqn:E3.
      * intros H. inversion H; subst m. now apply Three.
      * destruct (QRegularExpression.at_dollar r2) eqn:E2; [|discriminate].
        intros H. inversion H; subst m. now apply Two.
  - destruct (QRegularExpression.at_dollar r2) eqn:E2; [|discriminate].
    intros H. inversion H; subst m. now apply Two.
Qed.

Lemma at_dollar_spec (rest : string) :
  QRegularExpression.at_dollar rest = true ->
  rest = EmptyString \/ rest = String "010" EmptyString.
Proof.
  destruct rest as [|c [|c' r]]; simpl; intros H;
    [now left | right | discriminate].
  now apply Ascii.eqb_eq in H; subst.
Qed.

Lemma version_match_shape (v m : string) :
  QRegularExpression.version_match v = Some m ->
  exists before parts rest,
    v = (before ++ m ++ rest)%string
    /\ (rest = EmptyString \/ rest = String "010" EmptyString)
    /\ m = join_dots parts
    /\ Forall (fun p => is_number p = true) parts
    /\ (2 <= List.length parts <= 4)%nat.
Proof.
  induction v as [|c v IH]; cbn [QRegularExpression.version_match].
  - destruct (QRegularExpression.version_match_here EmptyString) eqn:Hh;
      [|discriminate].
    intros H. inversion H; subst.
    destruct (version_match_here_spec _ _ Hh) as (parts & rest & Hm & Hall & Hlen & Hs & He).
    exists EmptyString, parts, rest. apply at_dollar_spec in He. auto.
  - destruct (QRegularExpression.version_match_here (String c v)) eqn:Hh.
    + intros H. inversion H; subst.
      destruct (version_match_here_spec _ _ Hh) as (parts & rest & Hm & Hall & Hlen & Hs & He).
      exists EmptyString, parts, rest. apply at_dollar_spec in He. auto.
    + intros H. destruct (IH H) as (before & parts & rest & Hv & Hrest & Hm & Hall & Hlen).
      exists (String c before), parts, rest. rewrite Hv. auto.
Qed.

Lemma is_digit_not_dot (c : ascii) :
  QString.is_digit c = true -> Ascii.eqb c "." = false.
Proof.
  destruct c as [[] [] [] [] [] [] [] []]; vm_compute; intros H;
    first [reflexivity | discriminate H].
Qed.

Lemma split_only_digits (d : string) :
  only_digits d = true -> QString.split "." d = [d].
Proof.
  induction d as [|c d IH]; simpl; intros H; [reflexivity|].
  apply andb_prop in H as [Hc Hd].
  rewrite (is_digit_not_dot c Hc), (IH Hd). reflexivity.
Qed.

Lemma split_join_dots (parts : list string) :
  Forall (fun p => is_number p = true) parts -> parts <> [] ->
  QString.split "." (join_dots parts) = parts.
Proof.
  induction parts as [|p rest IH]; intros Hall Hne; [contradiction|].
  inversion Hall as [|? ? Hp Hrest]; subst.
  apply andb_prop in Hp as [Hd _].
  destruct rest as [|q rest].
  - simpl. now apply split_only_digits.
  - change (join_dots (p :: q :: rest))
      with (p ++ String "." (join_dots (q :: rest)))%string.
    rewrite split_app_sep, (split_only_digits p Hd), IH;
      [reflexivity | exact Hrest | discriminate].
Qed.

Lemma toInt_number_nonneg (d : string) :
  only_digits d = true -> 0 <= QString.toInt d.
Proof.
  intros Hd. destruct d as [|c d]; [vm_compute; discriminate|].
  destruct (toInt_only_digits (String c d) Hd eq_refl) as (N & _ & Hpos & ->).
  destruct (N <=? QString.INT_MAX); lia.
Qed.

Lemma part_at_numbers_nonneg (parts : list string) (i : nat) :
  Forall (fun p => is_number p = true) parts -> 0 <= part_at parts i.
Proof.
  intros Hall. unfold part_at.
  destruct (Nat.ltb_spec i (List.length parts)) as [Hi|Hi]; [|lia].
  rewrite Forall_forall in Hall.
  pose proof (Hall _ (nth_In parts EmptyString Hi)) as Hp.
  apply andb_prop in Hp as [Hd _]. now apply toInt_number_nonneg.
Qed.

(** No field of the extracted version is negative. *)
Lemma version_captured_nonneg (v : string) (i : nat) :
  0 <= part_at (QString.split "." (QRegularExpression.version_captured v)) i.
Proof.
  unfold QRegularExpression.version_captured.
  destruct (QRegularExpression.version_match v) as [m|] eqn:Hm.
  - destruct (version_match_shape v m Hm) as (_ & parts & _ & _ & _ & -> & Hall & Hlen).
    rewrite split_join_dots; [now apply part_at_numbers_nonneg | exact Hall|].
    destruct parts; [simpl in Hlen; lia | discriminate].
  - destruct i as [|i]; vm_compute; discriminate.
Qed.

(** The version gate of [obs_module_load]: whatever the library reports, its
    extracted version passes exactly when the first number is at least 6
    (no match counts as 0). *)
Theorem version_gate_is_major_6 (reported : string) :
  is_version_supported (QRegularExpression.version_captured reported)
                       PLUGIN_MIN_NDI_VERSION
  = (6 <=? part_at (QString.split "."
                      (QRegularExpression.version_captured reported)) 0).
Proof.
  apply is_version_supported_minimum. intros i. apply version_captured_nonneg.
Qed.

(** The group the pattern extracts is two to four numbers joined by dots and
    ends the reported string, a final line feed apart. *)
Theorem version_match_spec (v m : string) :
  QRegularExpression.version_match v = Some m ->
  exists before parts rest,
    v = (before ++ m ++ rest)%string
    /\ (rest = EmptyString \/ rest = String "010" EmptyString)
    /\ m = join_dots parts
    /\ QString.split "." m = parts
    /\ Forall (fun p => is_number p = true) parts
    /\ (2 <= List.length parts <= 4)%nat.
Proof.
  intros H.
  destruct (version_match_shape v m H) as (before & parts & rest & Hv & Hr & Hm & Hall & Hlen).
  exists before, parts, rest. repeat split; try assumption; try lia.
  rewrite Hm. apply split_join_dots; [exact Hall|].
  destruct parts; [simpl in Hlen; lia | discriminate].
Qed.

Lemma version_match_spec_witness :
  exists before parts rest,
    "NDI SDK APPLE 13:02:11 Mar 4 2025 6.2.1.0" = (before ++ "6.2.1.0" ++ rest)%string
    /\ (rest = EmptyString \/ rest = String "010" EmptyString)
    /\ "6.2.1.0" = join_dots parts
    /\ QString.split "." "6.2.1.0" = parts
    /\ Forall (fun p => is_number p = true) parts
    /\ (2 <= List.length parts <= 4)%nat.
Proof.
  exact (version_match_spec "NDI SDK APPLE 13:02:11 Mar 4 2025 6.2.1.0" "6.2.1.0" eq_refl).
Defined.


(** ** Every way a load attempt can go *)

Lemma created_app (a b : list Event) : created (a ++ b) = created a ++ created b.
Proof.
  induction a as [|e a IH]; [reflexivity|].
  destruct e; simpl; rewrite IH; reflexivity.
Qed.

Lemma dialogs_app (a b : list Event) : dialogs (a ++ b) = (dialogs a + dialogs b)%nat.
Proof.
  induction a as [|e a IH]; [reflexivity|].
  destruct e; simpl; rewrite IH; reflexivity.
Qed.

Lemma urls_app (a b : list Event) : urls (a ++ b) = urls a ++ urls b.
Proof.
  induction a as [|e a IH]; [reflexivity|].
  destruct e; simpl; rewrite IH; reflexivity.
Qed.

Lemma lookups_are_silent (ev : list Event) :
  forallb is_lookup ev = true ->
  created ev = [] /\ dialogs ev = 0%nat /\ urls ev = [].
Proof.
  induction ev as [|e ev IH]; simpl; intros H; [repeat split|].
  apply andb_prop in H as [He Hev]. destruct (IH Hev) as (? & ? & ?).
  destruct e as [[] ?| | | | | | | | | | | | | |]; simpl in *;
    try discriminate; repeat split; assumption.
Qed.

(** A load attempt in which [load_ndilib] returns the null pointer: the
    error line, the prompt, and false. *)
Lemma obs_module_load_none (w : World) (s s2 : State) (tail : list Event) :
  let s1 := snd (locate w (snd (emit (EvLog LOG_DEBUG "+obs_module_load()") s))) in
  load_from w (selected w) s1 = (None, s2) ->
  trace s2 = trace s1 ++ tail ->
  exists ev,
    forallb is_lookup ev = true
    /\ same_globals s s1
    /\ obs_module_load w s =
       (false,
        {| loaded_lib := loaded_lib s2; ndiLib := None;
           next_address := next_address s2; live := live s2;
           isLoaded := isLoaded s2;
           trace := trace s ++
             [EvLog LOG_DEBUG "+obs_module_load()"] ++ ev ++ tail ++
             [EvLog LOG_ERROR "ERR-401 - NDI library failed to load. Please install NDI Runtime >= 6.0.0";
              EvDialog] ++
             (if clicks_install w then [EvOpenUrl (NDI_OFFICIAL_WEB_URL w)] else []) |}).
Proof.
  intros s1 Hload Htail. subst s1. cbn [emit snd] in *.
  unfold obs_module_load. unfold bind at 1 2. cbn [obs_log emit].
  rewrite load_ndilib_eq.
  match goal with
  | |- context [locate w ?x] => set (s0 := x) in *
  end.
  destruct (locate_run w s0) as (_ & Hg & ev & Ht & Hq).
  exists ev. split; [exact Hq|]. split; [exact Hg|].
  rewrite Hload. rewrite Ht in Htail. cbn [s0 trace] in Htail.
  unfold prompt_install. destruct (clicks_install w);
    cbn -[app]; rewrite Htail, <- !app_assoc; cbn [app]; reflexivity.
Qed.

Ltac observe Hq :=
  let H1 := fresh in let H2 := fresh in let H3 := fresh in
  let H4 := fresh in let H5 := fresh in let H6 := fresh in
  let H7 := fresh in let H8 := fresh in
  destruct (lookups_are_quiet _ Hq) as (H1 & H2 & H3 & H4 & H5);
  destruct (lookups_are_silent _ Hq) as (H6 & H7 & H8);
  erewrite ?events_since_app by (cbn [trace]; reflexivity);
  rewrite ?errors_app, ?registered_app, ?deleted_app, ?opened_app,
    ?destroyed_app, ?created_app, ?dialogs_app, ?urls_app,
    ?H1, ?H2, ?H3, ?H4, ?H5, ?H6, ?H7, ?H8;
  try match goal with
      | |- context [if clicks_install ?w then _ else _] =>
          destruct (clicks_install w) eqn:?
      end.

(** Splits a load attempt into its seven outcomes, each with the equation
    [Heq] of [obs_module_load w s] and the lookups [ev] of the locator. *)
Ltac load_cases w s :=
  let Hne := fresh "Hne" in let Himg := fresh "Himg" in
  let ev := fresh "ev" in let Hq := fresh "Hq" in let Hg := fresh "Hg" in
  let Heq := fresh "Heq" in let e := fresh "e" in let ndi := fresh "ndi" in
  let Hinit := fresh "Hinit" in let Hver := fresh "Hver" in
  destruct (QString.isEmpty (selected w)) eqn:Hne;
  [ destruct (obs_module_load_none w s _ _ (load_from_nothing w _ _ Hne) eq_refl)
      as (ev & Hq & Hg & Heq)
  | destruct (image w (selected w)) as [e| |[ndi|]] eqn:Himg;
    [ destruct (obs_module_load_none w s _ _
                  (load_from_unloadable w _ e _ Hne Himg) eq_refl)
        as (ev & Hq & Hg & Heq)
    | destruct (obs_module_load_none w s _ _
                  (load_from_no_entry w _ _ Hne Himg) eq_refl)
        as (ev & Hq & Hg & Heq)
    | destruct (obs_module_load_entry w s ndi Hne Himg) as (ev & Hq & Heq);
      cbv zeta in Heq;
      destruct (initialize ndi) eqn:Hinit;
      [ destruct (is_version_supported
                    (QRegularExpression.version_captured (version ndi))
                    PLUGIN_MIN_NDI_VERSION) eqn:Hver | ];
      cbn [negb] in Heq
    | destruct (obs_module_load_none w s _ _
                  (load_from_entry w _ None _ Hne Himg) eq_refl)
        as (ev & Hq & Hg & Heq) ] ];
  rewrite Heq; cbn [fst snd].

(** Each load attempt opens at most one file as a library: the one the
    locator selected. *)
Theorem obs_module_load_opens_selected (w : World) (s : State) :
  opened (events_since s (snd (obs_module_load w s)))
  = if QString.isEmpty (selected w) then [] else [selected w].
Proof.
  load_cases w s; observe Hq; reflexivity.
Qed.

(** Module load returns true exactly when it logged no error, and it hands
    the three capability objects to the host, in their order, exactly then;
    otherwise it registers nothing. *)
Theorem obs_module_load_registers_iff_true (w : World) (s : State) :
  (fst (obs_module_load w s) = true
   <-> errors (events_since s (snd (obs_module_load w s))) = [])
  /\ registered (events_since s (snd (obs_module_load w s)))
     = if fst (obs_module_load w s)
       then ["ndi_source_info"; "ndi_output_info"; "alpha_filter_info"]
       else [].
Proof.
  load_cases w s; observe Hq; cbn;
    (split; [split; intros Hyp; first [reflexivity | discriminate Hyp] | reflexivity]).
Qed.

(** Module load succeeds exactly when a file was selected, it opens and has
    the entry function, the entry function returns an interface whose
    [initialize()] succeeds, and the extracted version is supported. *)
Theorem obs_module_load_true_iff (w : World) (s : State) :
  fst (obs_module_load w s) = true
  <-> QString.isEmpty (selected w) = false
      /\ exists ndi,
          image w (selected w) = EntryPoint (Some ndi)
          /\ initialize ndi = true
          /\ is_version_supported
               (QRegularExpression.version_captured (version ndi))
               PLUGIN_MIN_NDI_VERSION = true.
Proof.
  load_cases w s; split;
    try (intros H; discriminate H);
    try (intros (Hx & n & Hi & Hn & Hv); congruence).
  intros _. split; [reflexivity|]. eauto.
Qed.

(** The install prompt is shown exactly when no interface pointer was
    obtained (not when initialization or the version check fails), once; and
    the download page is opened only then and only if the user asks. *)
Theorem obs_module_load_prompt (w : World) (s : State) :
  dialogs (events_since s (snd (obs_module_load w s)))
  = match ndiLib (snd (obs_module_load w s)) with Some _ => 0%nat | None => 1%nat end
  /\ urls (events_since s (snd (obs_module_load w s)))
     = match ndiLib (snd (obs_module_load w s)) with
       | Some _ => []
       | None => if clicks_install w then [NDI_OFFICIAL_WEB_URL w] else []
       end.
Proof.
  load_cases w s; cbn [ndiLib]; observe Hq; split; reflexivity.
Qed.

(** The error lines of a load attempt, by cause. *)
Theorem obs_module_load_errors (w : World) (s : State) :
  errors (events_since s (snd (obs_module_load w s)))
  = if QString.isEmpty (selected w) then ["ERR-404"; "ERR-401"]
    else match image w (selected w) with
         | Unloadable _ => ["ERR-402"; "ERR-404"; "ERR-401"]
         | NoEntryPoint => ["ERR-405"; "ERR-404"; "ERR-401"]
         | EntryPoint None => ["ERR-401"]
         | EntryPoint (Some ndi) =>
             if negb (initialize ndi) then ["ERR-406"]
             else if negb (is_version_supported
                             (QRegularExpression.version_captured (version ndi))
                             PLUGIN_MIN_NDI_VERSION)
                  then ["ERR-425"] else []
         end.
Proof.
  load_cases w s; observe Hq; rewrite ?Hinit, ?Hver; reflexivity.
Qed.

(** A file that does not open as a library: module load fails, and the
    [QLibrary] object made for it is deleted again, once, and [loaded_lib]
    nulled; no other object leaves the heap. *)
Theorem obs_module_load_unloadable (w : World) (s : State) (e : string) :
  QString.isEmpty (selected w) = false ->
  image w (selected w) = Unloadable e ->
  let lib := {| address := next_address s; fileName := selected w |} in
  fst (obs_module_load w s) = false
  /\ created (events_since s (snd (obs_module_load w s))) = [lib]
  /\ deleted (events_since s (snd (obs_module_load w s))) = [lib]
  /\ loaded_lib (snd (obs_module_load w s)) = None
  /\ ndiLib (snd (obs_module_load w s)) = None
  /\ ~ In lib (live (snd (obs_module_load w s)))
  /\ (forall l, In l (live s) -> address l <> next_address s ->
                In l (live (snd (obs_module_load w s)))).
Proof.
  intros Hne Himg lib.
  destruct (obs_module_load_none w s _ _
              (load_from_unloadable w _ e _ Hne Himg) eq_refl)
    as (ev & Hq & (_ & _ & Hna & Hlv & _) & Heq).
  rewrite Heq. cbn [fst snd loaded_lib ndiLib live]. rewrite Hna, Hlv. fold lib.
  observe Hq.
  - repeat split; try reflexivity.
    + intros Hin. apply filter_In in Hin as [_ Hneg].
      rewrite QLibrary_eqb_refl in Hneg. discriminate Hneg.
    + intros l Hin Haddr. apply filter_In. split; [exact Hin|].
      unfold QLibrary_eqb. cbn [address lib].
      destruct (Nat.eqb_spec (address l) (next_address s)); [contradiction | reflexivity].
  - repeat split; try reflexivity.
    + intros Hin. apply filter_In in Hin as [_ Hneg].
      rewrite QLibrary_eqb_refl in Hneg. discriminate Hneg.
    + intros l Hin Haddr. apply filter_In. split; [exact Hin|].
      unfold QLibrary_eqb. cbn [address lib].
      destruct (Nat.eqb_spec (address l) (next_address s)); [contradiction | reflexivity].
Qed.

Lemma obs_module_load_unloadable_witness :
  created (events_since initial_state
             (snd (obs_module_load (mac_world usr_local_dylib (Unloadable "not a mach-o file"))
                                   initial_state)))
  = deleted (events_since initial_state
               (snd (obs_module_load (mac_world usr_local_dylib (Unloadable "not a mach-o file"))
                                     initial_state))).
Proof.
  destruct (obs_module_load_unloadable
              (mac_world usr_local_dylib (Unloadable "not a mach-o file"))
              initial_state "not a mach-o file" eq_refl eq_refl)
    as (_ & Hc & Hd & _).
  now rewrite Hc, Hd.
Defined.

(** An entry function that returns the null pointer: module load fails with
    ERR-401 alone, and the library stays open and held by [loaded_lib]. *)
Theorem obs_module_load_null_interface (w : World) (s : State) :
  QString.isEmpty (selected w) = false ->
  image w (selected w) = EntryPoint None ->
  let lib := {| address := next_address s; fileName := selected w |} in
  fst (obs_module_load w s) = false
  /\ errors (events_since s (snd (obs_module_load w s))) = ["ERR-401"]
  /\ deleted (events_since s (snd (obs_module_load w s))) = []
  /\ loaded_lib (snd (obs_module_load w s)) = Some lib
  /\ In lib (live (snd (obs_module_load w s)))
  /\ ndiLib (snd (obs_module_load w s)) = None.
Proof.
  intros Hne Himg lib.
  destruct (obs_module_load_none w s _ _
              (load_from_entry w _ None _ Hne Himg) eq_refl)
    as (ev & Hq & (_ & _ & Hna & Hlv & _) & Heq).
  rewrite Heq. cbn [fst snd loaded_lib ndiLib live]. rewrite Hna, Hlv. fold lib.
  observe Hq; repeat split; try reflexivity; left; reflexivity.
Qed.

Lemma obs_module_load_null_interface_witness :
  errors (events_since initial_state
            (snd (obs_module_load (mac_world usr_local_dylib (EntryPoint None))
                                  initial_state))) = ["ERR-401"].
Proof.
  destruct (obs_module_load_null_interface
              (mac_world usr_local_dylib (EntryPoint None)) initial_state
              eq_refl eq_refl) as (_ & He & _).
  exact He.
Defined.

(** ** A load followed by an unload *)

(** From a state without library objects, a load attempt followed by an
    unload leaves none behind, whatever the load attempt met: at most one
    object was created, every object created was deleted once, and
    [destroy()] was called exactly when an interface pointer had been
    obtained (also when initialization or the version check had failed). *)
Theorem load_unload_cycle (w : World) (s : State) :
  live s = [] -> loaded_lib s = None ->
  let s1 := snd (obs_module_load w s) in
  let s2 := snd (obs_module_unload s1) in
  live s2 = []
  /\ created (events_since s s2) = deleted (events_since s s2)
  /\ (List.length (created (events_since s s2)) <= 1)%nat
  /\ destroyed (events_since s s2)
     = match ndiLib s1 with Some ndi => [ndi] | None => [] end.
Proof.
  intros Hlive Hnull s1 s2. split.
  - apply (unload_releases s1). apply (load_owned w s Hlive).
  - subst s2 s1. rewrite obs_module_unload_eq. cbn [snd].
    load_cases w s; cbn [loaded_lib ndiLib trace];
      try (destruct Hg as (Hll & _); rewrite ?Hll, ?Hnull);
      (erewrite events_since_app
         by (cbn [trace]; rewrite <- ?app_assoc; reflexivity));
      observe Hq; cbn; repeat split; lia.
Qed.

Lemma load_unload_cycle_witness :
  live (snd (obs_module_unload (snd (obs_module_load working_mac initial_state)))) = []
  /\ destroyed (events_since initial_state
                  (snd (obs_module_unload
                          (snd (obs_module_load working_mac initial_state)))))
     = [ndi_6_2_1].
Proof.
  destruct (load_unload_cycle working_mac initial_state eq_refl eq_refl)
    as (Hl & _ & _ & Hd).
  split; [exact Hl | exact Hd].
Defined.

(** ** What the locator can select *)

Lemma locate_first_sound (w : World) (locs : list string) :
  forall s,
    fst (locate_first w locs s) = EmptyString
    \/ exists d, In d locs
                 /\ is_regular_file w (temp_path w d) = true
                 /\ fst (locate_first w locs s) = temp_path w d.
Proof.
  induction locs as [|x locs IH]; intros s; [now left|].
  rewrite locate_first_cons. cbv zeta.
  destruct (is_regular_file w (temp_path w x)) eqn:Hx.
  - right. exists x. repeat split; [now left | exact Hx].
  - destruct (IH (snd (emit (EvFileInfo (temp_path w x))
                         (snd (emit (EvLog LOG_DEBUG "load_ndilib: Trying '%s'") s)))))
      as [Hnone|(d & Hin & Hd & Hr)]; [now left|].
    right. exists d. repeat split; [now right | exact Hd | exact Hr].
Qed.

(** Built for macOS or Windows, the locator selects nothing or the library
    file of one of its locations, and only one that exists as a regular
    file. *)
Theorem selected_exists (w : World) :
  platform w <> Q_OS_LINUX ->
  selected w = EmptyString
  \/ exists d, In d (locations w)
               /\ is_regular_file w (temp_path w d) = true
               /\ selected w = temp_path w d.
Proof.
  intros Hp. unfold selected. rewrite (locate_elsewhere w _ Hp).
  apply locate_first_sound.
Qed.

Lemma selected_exists_witness :
  selected working_mac = EmptyString
  \/ exists d, In d (locations working_mac)
               /\ is_regular_file working_mac (temp_path working_mac d) = true
               /\ selected working_mac = temp_path working_mac d.
Proof.
  apply selected_exists. discriminate.
Defined.

(** Built for Linux, the locator selects nothing or a file that one of its
    locations lists, whose name passes the filter and the pattern, with a
    number of at least 1. *)
Theorem selected_is_listed (w : World) :
  platform w = Q_OS_LINUX ->
  selected w = EmptyString
  \/ exists location file_name captured,
      In location (locations w)
      /\ In file_name (files_in w location)
      /\ QRegularExpression.name_filter_libndi file_name = true
      /\ QRegularExpression.libndi_match file_name = Some captured
      /\ 0 < QString.toInt captured
      /\ selected w = absoluteFilePath w location file_name.
Proof.
  intros Hp. unfold selected. rewrite (locate_on_linux w _ Hp). cbn [fst snd].
  destruct (locate_linux_run w (locations w) (0, EmptyString) initial_state)
    as (-> & _).
  destruct (running_max_spec (candidates w (locations w)) (0, EmptyString))
    as [_ [[-> _]|(before & after & Hsplit & Hlt & _)]]; [now left|].
  right.
  destruct (running_max (candidates w (locations w)) (0, EmptyString))
    as [vmax lp] eqn:Hmax.
  cbn [fst snd] in *.
  assert (Hin : In (vmax, lp) (candidates w (locations w)))
    by (rewrite Hsplit; apply in_elt).
  unfold candidates in Hin. apply in_flat_map in Hin as (location & Hloc & Hin).
  unfold candidates_in in Hin. apply in_flat_map in Hin as (file_name & Hfile & Hin).
  apply filter_In in Hfile as [Hfile Hfilter].
  destruct (QRegularExpression.libndi_match file_name) as [captured|] eqn:Hm;
    [|contradiction].
  destruct Hin as [Hin|[]]. inversion Hin; subst.
  exists location, file_name, captured. repeat split; assumption.
Qed.

Lemma selected_is_listed_witness :
  selected (linux_world files_3_10_2 NoEntryPoint) = EmptyString
  \/ exists location file_name captured,
      In location (locations (linux_world files_3_10_2 NoEntryPoint))
      /\ In file_name (files_in (linux_world files_3_10_2 NoEntryPoint) location)
      /\ QRegularExpression.name_filter_libndi file_name = true
      /\ QRegularExpression.libndi_match file_name = Some captured
      /\ 0 < QString.toInt captured
      /\ selected (linux_world files_3_10_2 NoEntryPoint)
         = absoluteFilePath (linux_world files_3_10_2 NoEntryPoint) location file_name.
Proof.
  apply selected_is_listed. reflexivity.
Defined.

(** ** Environment overrides *)

(** Built for macOS or Windows and without a bundled library: a library in
    the directory NDI_RUNTIME_DIR_V6 names is selected whatever the system
    and vendor directories hold; NDILIB_REDIST_FOLDER comes next, when the
    first variable is unset (or empty) or its directory has no library. *)
Theorem environment_overrides (w : World) :
  platform w <> Q_OS_LINUX ->
  is_regular_file w (temp_path w (frameworksDir w)) = false ->
  (QString.isEmpty (qgetenv w "NDI_RUNTIME_DIR_V6") = false ->
   is_regular_file w (temp_path w (qgetenv w "NDI_RUNTIME_DIR_V6")) = true ->
   selected w = temp_path w (qgetenv w "NDI_RUNTIME_DIR_V6"))
  /\ (QString.isEmpty (qgetenv w "NDI_RUNTIME_DIR_V6") = true
      \/ is_regular_file w (temp_path w (qgetenv w "NDI_RUNTIME_DIR_V6")) = false ->
      QString.isEmpty (qgetenv w "NDILIB_REDIST_FOLDER") = false ->
      is_regular_file w (temp_path w (qgetenv w "NDILIB_REDIST_FOLDER")) = true ->
      selected w = temp_path w (qgetenv w "NDILIB_REDIST_FOLDER")).
Proof.
  intros Hp Hbundle. unfold selected. rewrite (locate_elsewhere w _ Hp).
  unfold locations, env_location. split.
  - intros Hset Hfile. rewrite Hset.
    apply (locate_first_found w [frameworksDir w]
             (qgetenv w "NDI_RUNTIME_DIR_V6")); [|exact Hfile].
    intros x [<-|[]]. exact Hbundle.
  - intros Hv6 Hset Hfile. rewrite Hset.
    destruct (QString.isEmpty (qgetenv w "NDI_RUNTIME_DIR_V6")) eqn:He.
    + apply (locate_first_found w [frameworksDir w]
               (qgetenv w "NDILIB_REDIST_FOLDER")); [|exact Hfile].
      intros x [<-|[]]. exact Hbundle.
    + destruct Hv6 as [Hv6|Hv6]; [discriminate Hv6|].
      apply (locate_first_found w
               [frameworksDir w; qgetenv w "NDI_RUNTIME_DIR_V6"]
               (qgetenv w "NDILIB_REDIST_FOLDER")); [|exact Hfile].
      intros x [<-|[<-|[]]]; assumption.
Qed.

Lemma environment_overrides_witness :
  selected windows_world
  = "C:/Program Files/NDI/NDI 6 Runtime/v6/Processing.NDI.Lib.x64.dll".
Proof.
  assert (Hp : platform windows_world <> Q_OS_LINUX) by discriminate.
  exact (proj1 (environment_overrides windows_world Hp eq_refl) eq_refl eq_refl).
Defined.

(** ** The configuration singleton *)

Lemma Config_step_singleton (o : ConfigOp) (cs : ConfigState) :
  Config_singleton cs -> Config_singleton (Config_step o cs).
Proof.
  unfold Config_singleton. intros H.
  destruct o as [|load|]; cbn [Config_step Config_Current snd];
    unfold Config_Initialize, Config_Destroy;
    destruct (_instance cs) as [a|] eqn:Hi; cbn; rewrite ?Hi; try exact H.
  - rewrite H. now exists Config_new.
  - rewrite H. now exists Config_new.
  - destruct H as [c ->]. cbn. now rewrite Nat.eqb_refl.
Qed.

(** Whatever the calls of Initialize, Current and Destroy, at most one
    [Config] object exists, and [_instance] is null exactly when none does;
    otherwise it points to that object. *)
Theorem Config_is_singleton (ops : list ConfigOp) :
  Config_singleton (Config_run ops Config_initial)
  /\ (List.length (config_heap (Config_run ops Config_initial)) <= 1)%nat
  /\ (_instance (Config_run ops Config_initial) = None
      <-> config_heap (Config_run ops Config_initial) = []).
Proof.
  assert (Hinv : Config_singleton (Config_run ops Config_initial)).
  { induction ops as [|o ops IH] using rev_ind; [reflexivity|].
    unfold Config_run. rewrite fold_left_app. cbn [fold_left].
    now apply Config_step_singleton. }
  split; [exact Hinv|]. unfold Config_singleton in Hinv.
  destruct (_instance (Config_run ops Config_initial)) as [a|].
  - destruct Hinv as [c ->]. split; [simpl; lia|]. split; discriminate.
  - rewrite Hinv. split; [simpl; lia|]. split; reflexivity.
Qed.

(** [Config::Current] never returns the null pointer and ignores its
    argument; it makes an object with the default values only when there is
    none, and otherwise returns the one there is and changes nothing, so two
    calls in a row give the same pointer. *)
Theorem Config_Current_spec (load load' : bool) (cs : ConfigState) :
  (exists a, fst (Config_Current load cs) = Some a
             /\ _instance (snd (Config_Current load cs)) = Some a
             /\ Config_Current load' (snd (Config_Current load cs))
                = Config_Current load cs)
  /\ Config_Current load cs = Config_Current load' cs
  /\ (forall a, _instance cs = Some a -> Config_Current load cs = (Some a, cs))
  /\ (_instance cs = None ->
      Config_at (config_heap (snd (Config_Current load cs))) (config_next cs)
      = Some Config_new
      /\ fst (Config_Current load cs) = Some (config_next cs)).
Proof.
  unfold Config_Current, Config_Initialize.
  destruct (_instance cs) as [a|] eqn:Hi; cbn; rewrite ?Hi; cbn.
  - split; [exists a; repeat split|]. split; [reflexivity|].
    split; [intros b Hb; now inversion Hb | discriminate].
  - split; [eexists; repeat split|]. split; [reflexivity|].
    split; [discriminate|]. intros _. now rewrite Nat.eqb_refl.
Qed.

(** [Config::Destroy] can be called twice: the second call does nothing.
    After it [_instance] is null, and with the singleton in place no object
    is left; the next [Current] starts from the default values again. *)
Theorem Config_Destroy_spec (load : bool) (cs : ConfigState) :
  Config_singleton cs ->
  Config_Destroy (Config_Destroy cs) = Config_Destroy cs
  /\ _instance (Config_Destroy cs) = None
  /\ config_heap (Config_Destroy cs) = []
  /\ config_heap (snd (Config_Current load (Config_Destroy cs)))
     = [(config_next cs, Config_new)].
Proof.
  unfold Config_singleton, Config_Current, Config_Initialize, Config_Destroy.
  destruct (_instance cs) as [a|] eqn:Hi; cbn; rewrite ?Hi; cbn.
  - intros [c ->]. cbn. rewrite Nat.eqb_refl. cbn. repeat split.
  - intros ->. repeat split.
Qed.

(** A configuration is made, destroyed and asked for again. *)
Lemma Config_Destroy_spec_witness :
  config_heap (snd (Config_Current false
                      (Config_Destroy (Config_Initialize Config_initial))))
  = [(2%nat, Config_new)].
Proof.
  assert (H : Config_singleton (Config_Initialize Config_initial))
    by (now exists Config_new).
  destruct (Config_Destroy_spec false (Config_Initialize Config_initial) H)
    as (_ & _ & _ & Hheap).
  exact Hheap.
Defined.

(** ** What a load attempt leaves alone *)

(** Module load never deletes a library object that was there before the
    call: loading again without an unload in between leaves the earlier
    object on the heap. *)
Theorem obs_module_load_keeps_older (w : World) (s : State) (l : QLibrary) :
  In l (live s) -> (address l < next_address s)%nat ->
  In l (live (snd (obs_module_load w s))).
Proof.
  intros Hin Hlt.
  destruct (obs_module_load_cases w s)
    as [(_ & _ & _ & Hv & _)|[(_ & _ & _ & _ & Hv & _)|[(_ & _ & _ & _ & Hv & _)
        |(_ & _ & _ & Hv & _)]]];
    cbv zeta in Hv; rewrite Hv; try (now right); try exact Hin.
  apply filter_In. split; [exact Hin|].
  unfold QLibrary_eqb. cbn [address].
  destruct (Nat.eqb_spec (address l) (next_address s)); [lia | reflexivity].
Qed.

(** Two loads in a row: the first library object is still there. *)
Lemma obs_module_load_keeps_older_witness :
  List.length (live (snd (obs_module_load working_mac
                            (snd (obs_module_load working_mac initial_state)))))
  = 2%nat
  /\ In {| address := 1; fileName := usr_local_dylib |}
        (live (snd (obs_module_load working_mac
                      (snd (obs_module_load working_mac initial_state))))).
Proof.
  split; [vm_compute; reflexivity|].
  apply obs_module_load_keeps_older;
    [vm_compute; left; reflexivity | vm_compute; lia].
Defined.

(** A library whose version string does not end in a dotted group of
    numbers is refused with ERR-425, like one that is too old. *)
Theorem obs_module_load_version_unreadable (w : World) (s : State) (ndi : NDIlib_v6) :
  QString.isEmpty (selected w) = false ->
  image w (selected w) = EntryPoint (Some ndi) ->
  initialize ndi = true ->
  QRegularExpression.version_match (version ndi) = None ->
  fst (obs_module_load w s) = false
  /\ errors (events_since s (snd (obs_module_load w s))) = ["ERR-425"]
  /\ registered (events_since s (snd (obs_module_load w s))) = [].
Proof.
  intros Hne Himg Hinit Hnone.
  destruct (obs_module_load_entry w s ndi Hne Himg) as (ev & Hq & Hload).
  cbv zeta in Hload. unfold QRegularExpression.version_captured in Hload.
  rewrite Hinit, Hnone in Hload.
  change (is_version_supported EmptyString PLUGIN_MIN_NDI_VERSION) with false in Hload.
  cbn [negb] in Hload. rewrite Hload. cbn [fst snd].
  observe Hq. repeat split.
Qed.

Lemma obs_module_load_version_unreadable_witness :
  errors (events_since initial_state
            (snd (obs_module_load
                    (mac_world usr_local_dylib (EntryPoint (Some ndi_unversioned)))
                    initial_state))) = ["ERR-425"].
Proof.
  destruct (obs_module_load_version_unreadable
              (mac_world usr_local_dylib (EntryPoint (Some ndi_unversioned)))
              initial_state ndi_unversioned eq_refl eq_refl eq_refl eq_refl)
    as (_ & He & _).
  exact He.
Defined.

(** ** The lifecycle invariant *)

Lemma QLibrary_eqb_eq (a b : QLibrary) : QLibrary_eqb a b = true -> a = b.
Proof.
  destruct a as [n f], b as [m g]. unfold QLibrary_eqb. cbn [address fileName].
  intros H. apply andb_prop in H as [Hn Hf].
  apply Nat.eqb_eq in Hn. apply String.eqb_eq in Hf. now subst.
Qed.

Lemma NoDup_snoc (l : list QLibrary) (x : QLibrary) :
  NoDup l -> ~ In x l -> NoDup (l ++ [x]).
Proof.
  intros Hl Hx. apply NoDup_app; [exact Hl | constructor; [intros [] | constructor] |].
  intros a Ha [<-|[]]. contradiction.
Qed.

(** What a load attempt deletes: the object it has just created, when the
    file does not load; nothing otherwise. *)
Lemma obs_module_load_deleted (w : World) (s : State) :
  deleted (trace (snd (obs_module_load w s)))
  = deleted (trace s)
    ++ (if QString.isEmpty (selected w) then []
        else match image w (selected w) with
             | Unloadable _ => [{| address := next_address s; fileName := selected w |}]
             | _ => []
             end)
  /\ (next_address s <= next_address (snd (obs_module_load w s)))%nat.
Proof.
  load_cases w s; cbn [trace next_address];
    try (destruct Hg as (_ & _ & Hna & _); rewrite ?Hna);
    rewrite !deleted_app;
    destruct (lookups_are_quiet _ Hq) as (_ & -> & _);
    try (destruct (clicks_install w));
    cbn; rewrite ?app_nil_r; split; first [reflexivity | lia].
Qed.

Lemma load_tidy (w : World) (s : State) :
  tidy s -> tidy (step (OpLoad w) s).
Proof.
  intros (Hlive & Hdel & Hnd). cbn [step]. unfold tidy.
  destruct (obs_module_load_deleted w s) as [Hd Hnext]. rewrite Hd. clear Hd.
  destruct (obs_module_load_cases w s)
    as [(Hne & _ & _ & Hv & _)
       |[(Hne & (e & Himg) & _ & _ & Hv & _)
        |[(Hne & Himg & _ & _ & Hv & _)|(Hne & Himg & _ & Hv & _)]]];
    cbv zeta in Hv; rewrite Hv, Hne; clear Hv; rewrite ?Himg;
    cbv iota; rewrite ?app_nil_r.
  - split; [intros l Hl; specialize (Hlive l Hl); lia|].
    split; [|exact Hnd].
    intros l Hl. destruct (Hdel l Hl). split; [lia | assumption].
  - assert (Hnext' : next_address (snd (obs_module_load w s)) = S (next_address s)).
    { destruct (obs_module_load_globals w s) as (_ & _ & Hn & _).
      cbv zeta in Hn. rewrite Hn.
      rewrite (load_from_unloadable w _ e _ Hne Himg). cbn.
      destruct (locate_run w (snd (emit (EvLog LOG_DEBUG "+obs_module_load()") s)))
        as (_ & (_ & _ & Hna & _) & _).
      cbn in Hna. now rewrite Hna. }
    rewrite Hnext'.
    split.
    { intros l Hl. apply filter_In in Hl as [Hl _]. specialize (Hlive l Hl). lia. }
    split.
    { intros l Hl. apply in_app_or in Hl as [Hl|[<-|[]]].
      - destruct (Hdel l Hl) as [Ha Hn]. split; [lia|].
        intros Hin. apply filter_In in Hin as [Hin _]. contradiction.
      - cbn [address]. split; [lia|].
        intros Hin. apply filter_In in Hin as [_ Hneg].
        rewrite QLibrary_eqb_refl in Hneg. discriminate Hneg. }
    apply NoDup_snoc; [exact Hnd|].
    intros Hin. destruct (Hdel _ Hin) as [Ha _]. cbn [address] in Ha. lia.
  - assert (Hnext' : next_address (snd (obs_module_load w s)) = S (next_address s)).
    { destruct (obs_module_load_globals w s) as (_ & _ & Hn & _).
      cbv zeta in Hn. rewrite Hn.
      rewrite (load_from_no_entry w _ _ Hne Himg). cbn.
      destruct (locate_run w (snd (emit (EvLog LOG_DEBUG "+obs_module_load()") s)))
        as (_ & (_ & _ & Hna & _) & _).
      cbn in Hna. now rewrite Hna. }
    rewrite Hnext'.
    split.
    { intros l [<-|Hl]; [cbn [address]; lia | specialize (Hlive l Hl); lia]. }
    split; [|exact Hnd].
    intros l Hl. destruct (Hdel l Hl) as [Ha Hn]. split; [lia|].
    intros [<-|Hin]; [cbn [address] in Ha; lia | contradiction].
  - assert (Hnext' : next_address (snd (obs_module_load w s)) = S (next_address s)).
    { destruct (obs_module_load_globals w s) as (_ & _ & Hn & _).
      cbv zeta in Hn. rewrite Hn.
      rewrite (load_from_entry w _ _ _ Hne Himg). cbn.
      destruct (locate_run w (snd (emit (EvLog LOG_DEBUG "+obs_module_load()") s)))
        as (_ & (_ & _ & Hna & _) & _).
      cbn in Hna. now rewrite Hna. }
    rewrite Hnext'.
    split.
    { intros l [<-|Hl]; [cbn [address]; lia | specialize (Hlive l Hl); lia]. }
    split; [|exact Hnd].
    intros l Hl. destruct (Hdel l Hl) as [Ha Hn]. split; [lia|].
    intros [<-|Hin]; [cbn [address] in Ha; lia | contradiction].
Qed.

Lemma unload_tidy (s : State) :
  tidy s -> unload_defined s = true -> tidy (step OpUnload s).
Proof.
  intros (Hlive & Hdel & Hnd) Hdef. cbn [step]. rewrite obs_module_unload_eq.
  unfold tidy, unload_defined in *. cbn [snd live next_address trace].
  rewrite !deleted_app.
  replace (deleted (match ndiLib s with Some n => [EvDestroy n] | None => [] end))
    with (@nil QLibrary) by (destruct (ndiLib s); reflexivity).
  destruct (loaded_lib s) as [l|]; cbn; rewrite ?app_nil_r.
  - apply existsb_exists in Hdef as (x & Hx & Heq).
    apply QLibrary_eqb_eq in Heq. subst x.
    split.
    { intros y Hy. apply filter_In in Hy as [Hy _]. now apply Hlive. }
    split.
    { intros y Hy. apply in_app_or in Hy as [Hy|[<-|[]]].
      - destruct (Hdel y Hy) as [Ha Hn]. split; [exact Ha|].
        intros Hin. apply filter_In in Hin as [Hin _]. contradiction.
      - split; [now apply Hlive|].
        intros Hin. apply filter_In in Hin as [_ Hneg].
        rewrite QLibrary_eqb_refl in Hneg. discriminate Hneg. }
    apply NoDup_snoc; [exact Hnd|].
    intros Hin. destruct (Hdel _ Hin) as [_ Hn]. contradiction.
  - repeat split; try assumption; apply (Hdel l H).
Qed.

Lemma run_tidy (ops : list Op) :
  forall s, tidy s -> defined_run ops s = true -> tidy (run ops s).
Proof.
  induction ops as [|o rest IH]; intros s Ht Hdef; [exact Ht|].
  change (run (o :: rest) s) with (run rest (step o s)).
  cbn [defined_run] in Hdef. apply andb_prop in Hdef as [Ho Hrest].
  apply IH; [|exact Hrest].
  destruct o as [w|]; [now apply load_tidy | now apply unload_tidy].
Qed.

(** C4, as the code has it: over every sequence of module loads and unloads
    from the initial state in which no unload meets a [loaded_lib] whose
    object is already deleted (what the program does from there on is not
    defined), [ndiLib] is non-null only while [loaded_lib] points to a live,
    loaded library object; both globals are null before any load attempt;
    [ndiLib] is null after an unload; no library object is deleted twice;
    and as long as no load attempt follows another without an unload in
    between, at most one library object is alive at any point of the run. *)
Theorem lifecycle_invariant (ops : list Op) :
  defined_run ops initial_state = true ->
  let s := run ops initial_state in
  (loaded_lib (run [] initial_state) = None /\ ndiLib (run [] initial_state) = None)
  /\ (forall ndi, ndiLib s = Some ndi ->
        exists lib, loaded_lib s = Some lib /\ In lib (live s) /\ In lib (isLoaded s))
  /\ (forall before, ops = before ++ [OpUnload] -> ndiLib s = None)
  /\ NoDup (deleted (trace s))
  /\ (serialized ops = true ->
      forall done rest, ops = done ++ rest ->
        (List.length (live (run done initial_state)) <= 1)%nat).
Proof.
  intros Hdef s. subst s. split; [split; reflexivity|]. split; [|split; [|split]].
  - intros ndi H.
    destruct ops as [|o ops] using rev_ind; [discriminate H|].
    rewrite run_snoc in *. now apply (step_interface_alive o _ ndi).
  - intros before ->. rewrite run_snoc. cbn [step].
    rewrite obs_module_unload_eq. reflexivity.
  - assert (Hinit : tidy initial_state).
    { split; [intros l []|]. split; [intros l []|]. constructor. }
    destruct (run_tidy ops initial_state Hinit Hdef) as (_ & _ & Hnd). exact Hnd.
  - intros Hser done rest ->.
    apply serialized_prefix in Hser.
    assert (Ho : owned (run done initial_state)).
    { apply run_owned; [now left | destruct done as [|[w|] ?]; auto | exact Hser]. }
    destruct Ho as [->|(lib & -> & _)]; simpl; lia.
Qed.

(** Load, unload, and load again: every delete met a live object, and one
    library object is alive at the end. *)
Lemma lifecycle_invariant_witness :
  defined_run [OpLoad working_mac; OpUnload; OpLoad working_mac] initial_state = true
  /\ (List.length (live (run [OpLoad working_mac; OpUnload; OpLoad working_mac]
                             initial_state)) <= 1)%nat.
Proof.
  assert (Hdef : defined_run [OpLoad working_mac; OpUnload; OpLoad working_mac]
                             initial_state = true) by (vm_compute; reflexivity).
  split; [exact Hdef|].
  destruct (lifecycle_invariant [OpLoad working_mac; OpUnload; OpLoad working_mac] Hdef)
    as (_ & _ & _ & _ & H).
  exact (H eq_refl [OpLoad working_mac; OpUnload; OpLoad working_mac] [] eq_refl).
Defined.
